(** * Kahoot agent: the resolution pipeline, embedded and verified

    A shallow embedding of the Python sources
      - [ocr_extractor.py]    (module [OCRExtractor]),
      - [answer_searcher.py]  (module [AnswerSearcher]),
      - [auto_clicker.py]     (module [AutoClicker]),
      - [screen_capture.py]   (module [ScreenCapture], the shapes of the areas),
      - [kahoot_agent.py]     (module [KahootAgent]),
    followed by the properties of the pipeline.

    Conventions.
      - A Python [str] is a [string]; a character is a code point below 256.
      - A Python [float] score is a rational [Q]: every raw score is a sum of
        integer multiples of 2, 0.5 and 5, hence a dyadic number that the
        source represents exactly; equality of scores is [Qeq].
      - A call that may raise returns [exc A]: [Ok a] or [Raised].
      - Everything outside the repository (the screen, the recognizer back
        ends, the web, the pointer) is an explicit argument. *)

From Stdlib Require Import List Bool Arith ZArith QArith Lia.
From Stdlib Require Import Strings.Ascii Strings.String.
Import ListNotations.

Local Close Scope Q_scope.
Local Open Scope nat_scope.
Local Open Scope string_scope.
Local Open Scope list_scope.

(* ================================================================== *)
(** ** Python text primitives *)
(* ================================================================== *)

Module Py.

(** Truthiness of a [str] and of a [list]. *)
Definition truthy (s : string) : bool :=
  match s with EmptyString => false | String _ _ => true end.

Definition is_nil {A} (l : list A) : bool :=
  match l with [] => true | _ :: _ => false end.

Definition code (c : ascii) : N := N_of_ascii c.

Definition in_range (lo hi : N) (c : ascii) : bool :=
  ((lo <=? code c) && (code c <=? hi))%N.

(** [str.isspace] on one character: TAB..CR, FS..US, SPACE, NEL, NBSP.
    The same set is what [\s] matches in a [str] pattern. *)
Definition is_space (c : ascii) : bool :=
  in_range 9 13 c || in_range 28 32 c || (code c =? 133)%N || (code c =? 160)%N.

(** [str.lower] on one character (Latin-1 range). *)
Definition lower_char (c : ascii) : ascii :=
  if in_range 65 90 c || in_range 192 214 c || in_range 216 222 c
  then ascii_of_N (code c + 32) else c.

Fixpoint lower (s : string) : string :=
  match s with
  | EmptyString => EmptyString
  | String c r => String (lower_char c) (lower r)
  end.

(** [s.lstrip()], [s.rstrip()], [s.strip()]. *)
Fixpoint lstrip (s : string) : string :=
  match s with
  | EmptyString => EmptyString
  | String c r => if is_space c then lstrip r else s
  end.

Fixpoint rstrip (s : string) : string :=
  match s with
  | EmptyString => EmptyString
  | String c r =>
      match rstrip r with
      | EmptyString => if is_space c then EmptyString else String c EmptyString
      | r' => String c r'
      end
  end.

Definition strip (s : string) : string := rstrip (lstrip s).

(** [s.split(sep)] for a one-character separator: never an empty list. *)
Fixpoint split_on (sep : ascii) (s : string) : list string :=
  match s with
  | EmptyString => [EmptyString]
  | String c r =>
      if Ascii.eqb c sep then EmptyString :: split_on sep r
      else match split_on sep r with
           | h :: t => String c h :: t
           | [] => [String c EmptyString]
           end
  end.

(** [s.split()]: maximal runs of non-space characters. *)
Fixpoint split (s : string) : list string :=
  match s with
  | EmptyString => []
  | String c r =>
      if is_space c then split r
      else match r with
           | EmptyString => [String c EmptyString]
           | String d _ =>
               if is_space d then String c EmptyString :: split r
               else match split r with
                    | h :: t => String c h :: t
                    | [] => [String c EmptyString]
                    end
           end
  end.

(** [sep.join(l)]. *)
Definition join (sep : string) (l : list string) : string := String.concat sep l.

(** [l[i:j]] for [0 <= i], [0 <= j]. *)
Definition slice {A} (l : list A) (i j : nat) : list A := firstn (j - i) (skipn i l).

(** [range(start, stop, step)] for a positive step. *)
Definition range (start stop step : nat) : list nat :=
  map (fun k => start + k * step) (seq 0 ((stop - start + step - 1) / step)).

(** [s.count(sub)]: occurrences of [sub] that do not overlap, leftmost first;
    [skip] is the number of characters still covered by the last occurrence. *)
Fixpoint count_skip (sub s : string) (skip : nat) : nat :=
  match s with
  | EmptyString => 0
  | String _ r =>
      match skip with
      | S k => count_skip sub r k
      | O => if String.prefix sub s
             then S (count_skip sub r (String.length sub - 1))
             else count_skip sub r 0
      end
  end.

Definition count (s sub : string) : nat :=
  match sub with
  | EmptyString => S (String.length s)
  | _ => count_skip sub s 0
  end.

(** [sub in s]. *)
Fixpoint contains (s sub : string) : bool :=
  String.prefix sub s ||
  match s with
  | EmptyString => false
  | String _ r => contains r sub
  end.

(** [s.endswith(c)] for a one-character suffix. *)
Fixpoint ends_with_char (p : ascii -> bool) (s : string) : bool :=
  match s with
  | EmptyString => false
  | String c EmptyString => p c
  | String _ r => ends_with_char p r
  end.

(** [re.sub(r'\s+', ' ', s)]: every run of white space becomes one space. *)
Fixpoint collapse_ws (s : string) : string :=
  match s with
  | EmptyString => EmptyString
  | String c r =>
      if is_space c then
        match r with
        | String d _ => if is_space d then collapse_ws r else String " " (collapse_ws r)
        | EmptyString => String " " EmptyString
        end
      else String c (collapse_ws r)
  end.

(** [re.sub(r'[...]', '', s)] for a character class. *)
Fixpoint remove_chars (p : ascii -> bool) (s : string) : string :=
  match s with
  | EmptyString => EmptyString
  | String c r => if p c then remove_chars p r else String c (remove_chars p r)
  end.

(** [re.sub(r'[...]+$', '', s)]: drop the trailing run of class characters. *)
Fixpoint drop_trailing (p : ascii -> bool) (s : string) : string :=
  match s with
  | EmptyString => EmptyString
  | String c r =>
      match drop_trailing p r with
      | EmptyString => if p c then EmptyString else String c EmptyString
      | r' => String c r'
      end
  end.

(** [re.sub(r'^[class]x?\s*', '', s)]: one class character at the start, an
    optional [x], then all white space that follows. Without a class
    character at the start the pattern does not match and [s] is unchanged. *)
Definition strip_enumerator (cls : ascii -> bool) (x : ascii) (s : string) : string :=
  match s with
  | EmptyString => EmptyString
  | String c r =>
      if cls c then
        lstrip (match r with
                | String d r' => if Ascii.eqb d x then r' else r
                | EmptyString => r
                end)
      else s
  end.

(** [len(re.findall(a + '.*' + b, s))] for literal [a] (not empty) and [b]:
    [.] matches every character but the line feed, [.*] is greedy, and the
    search resumes where the previous match ended. *)
Definition is_lf (c : ascii) : bool := (code c =? 10)%N.

(** The greatest [j] such that [rest[:j]] has no line feed and [b] matches at [j]. *)
Fixpoint last_match (b rest : string) : option nat :=
  let here := if String.prefix b rest then Some 0 else None in
  match rest with
  | EmptyString => here
  | String c r =>
      if is_lf c then here
      else match last_match b r with
           | Some j => Some (S j)
           | None => here
           end
  end.

Fixpoint drop (n : nat) (s : string) : string :=
  match n, s with
  | S k, String _ r => drop k r
  | _, _ => s
  end.

Fixpoint findall_skip (a b s : string) (skip : nat) : nat :=
  match s with
  | EmptyString => 0
  | String _ r =>
      match skip with
      | S k => findall_skip a b r k
      | O =>
          if String.prefix a s then
            match last_match b (drop (String.length a) s) with
            | Some j => S (findall_skip a b r (String.length a + j + String.length b - 1))
            | None => findall_skip a b r 0
            end
          else findall_skip a b r 0
      end
  end.

Definition findall_dotstar (a b s : string) : nat := findall_skip a b s 0.

(** [s] has no white space character. *)
Definition no_space (s : string) : bool :=
  forallb (fun c => negb (is_space c)) (list_ascii_of_string s).

(** [s] is empty or made of white space only: what [s.isspace()] or an
    empty [s] says. *)
Definition all_space (s : string) : bool :=
  forallb is_space (list_ascii_of_string s).

End Py.

(** A call that may raise. *)
Inductive exc (A : Type) : Type :=
| Ok (a : A)
| Raised.
Arguments Ok {A} a.
Arguments Raised {A}.

(** An image as the pipeline sees it: [shape[:2]] and the pixel data, which
    only the external recognizers and OpenCV look at. *)
Record image := mk_image { height : Z; width : Z; pixels : list Z }.

Definition position : Type := (Z * Z)%type.

(* ================================================================== *)
(** ** ocr_extractor.py *)
(* ================================================================== *)

Module OCRExtractor.

Definition LF : ascii := "010"%char.

(** The class [[|@#$%^&*]] of [clean_question_text]. *)
Definition is_artifact (c : ascii) : bool :=
  existsb (Ascii.eqb c) ["|"; "@"; "#"; "$"; "%"; "^"; "&"; "*"]%char.

Definition is_terminal (c : ascii) : bool :=
  existsb (Ascii.eqb c) ["?"; "."; "!"]%char.

Definition clean_question_text (raw_text : string) : string :=
  if negb (Py.truthy raw_text) then ""
  else
    let cleaned := Py.collapse_ws (Py.strip raw_text) in
    let cleaned := Py.remove_chars is_artifact cleaned in
    if Py.truthy cleaned && negb (Py.ends_with_char is_terminal cleaned)
    then cleaned ++ "?"
    else cleaned.

(** [re.sub(r'^[A-D]\)?\s*', '', s)] and [re.sub(r'^[1-4]\.?\s*', '', s)]. *)
Definition strip_letter (s : string) : string :=
  Py.strip_enumerator (Py.in_range 65 68) ")"%char s.

Definition strip_digit (s : string) : string :=
  Py.strip_enumerator (Py.in_range 49 52) "."%char s.

(** One turn of the loop [for line in lines] over the list [answers]. *)
Definition parse_line (answers : list string) (line : string) : list string :=
  let cleaned := Py.strip line in
  if (2 <? String.length cleaned)%nat then
    let cleaned := strip_letter cleaned in
    let cleaned := strip_digit cleaned in
    if Py.truthy cleaned then answers ++ [cleaned] else answers
  else answers.

Definition parse_answer_options (raw_text : string) : list string :=
  if negb (Py.truthy raw_text) then []
  else
    let lines := Py.split_on LF raw_text in
    let answers := fold_left parse_line lines [] in
    let answers :=
      if (List.length answers <? 2)%nat then
        let words := Py.split raw_text in
        if (4 <=? List.length words)%nat then
          map (fun i => Py.join " " (Py.slice words i (i + 3)))
              (Py.range 0 (Nat.min (List.length words) 12) 3)
        else answers
      else answers in
    firstn 4 answers.

Section Recognizer.

(** [self.extract_text]: the configured back end (EasyOCR or Tesseract),
    which may raise. *)
Variable extract_text : image -> exc string.

Definition extract_question (question_image : option image) : exc (option string) :=
  match question_image with
  | None => Ok None
  | Some img =>
      match extract_text img with
      | Raised => Raised
      | Ok text =>
          let question := clean_question_text text in
          Ok (if Py.truthy question then Some question else None)
      end
  end.

Definition extract_answers (answers_image : option image) : exc (list string) :=
  match answers_image with
  | None => Ok []
  | Some img =>
      match extract_text img with
      | Raised => Raised
      | Ok text => Ok (parse_answer_options text)
      end
  end.

End Recognizer.

(** *** The two back ends of [extract_text] *)

(** A region EasyOCR reports: bounding box, text, confidence. *)
Definition region : Type := (list position * string * Q)%type.

Section Backends.

(** [self.reader.readtext], [self.preprocess_image] (OpenCV) and
    [pytesseract.image_to_string] with the configured whitelist; each may
    raise. *)
Variable readtext : image -> exc (list region).
Variable preprocess_image : image -> exc image.
Variable image_to_string : image -> exc string.

(** One turn of the loop over the regions: a region counts when its
    confidence is above 0.3. *)
Definition keep_region (text_parts : list string) (r : region) : list string :=
  let '(bbox, text, confidence) := r in
  if negb (Qle_bool confidence (3 # 10)) then text_parts ++ [text] else text_parts.

(** The regions that count. *)
Definition confident (r : region) : bool := negb (Qle_bool (snd r) (3 # 10)).

Definition extract_text_easyocr (img : image) : exc string :=
  match readtext img with
  | Raised => Raised
  | Ok results =>
      let text_parts := fold_left keep_region results [] in
      Ok (Py.join " " text_parts)
  end.

Definition extract_text_tesseract (img : image) : exc string :=
  match preprocess_image img with
  | Raised => Raised
  | Ok processed_image =>
      match image_to_string processed_image with
      | Raised => Raised
      | Ok text => Ok (Py.strip text)
      end
  end.

Definition extract_text (use_easyocr : bool) (img : image) : exc string :=
  if use_easyocr then extract_text_easyocr img else extract_text_tesseract img.

End Backends.

(** *** The extraction of options as the specification words it *)

(** Groups of three consecutive elements, the last one possibly shorter. *)
Fixpoint chunk3 {A} (l : list A) : list (list A) :=
  match l with
  | a :: b :: c :: r => [a; b; c] :: chunk3 r
  | [] => []
  | _ => [l]
  end.

Definition strip_enumerators (s : string) : string := strip_digit (strip_letter s).

(** The usable fragments: the stripped lines longer than two characters,
    without their enumerator, the empty ones left out. *)
Definition fragments (raw_text : string) : list string :=
  filter Py.truthy
    (map strip_enumerators
       (filter (fun l => (2 <? String.length l)%nat)
          (map Py.strip (Py.split_on LF raw_text)))).

(** The degraded heuristic: the first 12 tokens in groups of 3 words. *)
Definition chunked (raw_text : string) : list string :=
  map (Py.join " ") (chunk3 (firstn 12 (Py.split raw_text))).



End OCRExtractor.

(* ================================================================== *)
(** ** auto_clicker.py *)
(* ================================================================== *)

Module AutoClicker.

Local Open Scope Z_scope.

Definition quadrants (height width : Z) : list position :=
  [ (width / 4, height / 4);
    (3 * width / 4, height / 4);
    (width / 4, 3 * height / 4);
    (3 * width / 4, 3 * height / 4) ].

Definition find_answer_buttons (answers_image : option image)
                               (answer_options : list string) : list position :=
  match answers_image with
  | None => []
  | Some img =>
      if Py.is_nil answer_options then []
      else
        let num_answers := Nat.min (List.length answer_options) 4 in
        firstn num_answers (quadrants (height img) (width img))
  end.

Section Desktop.

(** The OpenCV part of [find_color_coded_answers]: the centroids of the
    largest region of each colour band whose area exceeds 1000. *)
Variable color_centroids : image -> list position.

(** [pyautogui.click], which may raise. *)
Variable pointer_click : Z -> Z -> exc unit.

Definition find_color_coded_answers (answers_image : option image) : list position :=
  match answers_image with
  | None => []
  | Some img => color_centroids img
  end.

Definition click_answer (answer_index : nat) (button_positions : list position)
                        (answers_area_offset : position) : bool :=
  if Py.is_nil button_positions || (List.length button_positions <=? answer_index)%nat
  then false
  else
    match nth_error button_positions answer_index with
    | None => false
    | Some (rel_x, rel_y) =>
        let abs_x := rel_x + fst answers_area_offset in
        let abs_y := rel_y + snd answers_area_offset in
        match pointer_click abs_x abs_y with
        | Ok _ => true
        | Raised => false
        end
    end.

(** First loop: the first option that contains the answer, if any. *)
Fixpoint find_containing (best_lower : string) (i : nat) (options : list string) : option nat :=
  match options with
  | [] => None
  | option :: rest =>
      if Py.truthy option && Py.contains (Py.lower option) best_lower
      then Some i
      else find_containing best_lower (S i) rest
  end.

(** [set(s.lower().split())] *)
Definition word_set (s : string) : list string :=
  nodup string_dec (Py.split (Py.lower s)).

Definition overlap (best_words option_words : list string) : nat :=
  List.length (filter (fun w => existsb (String.eqb w) option_words) best_words).

(** Second loop: the option sharing most words with the answer, the first
    of them on a tie; the state is [(best_match_score, answer_index)]. *)
Fixpoint fuzzy_match (best_words : list string) (i : nat) (options : list string)
                     (st : nat * option nat) : nat * option nat :=
  match options with
  | [] => st
  | option :: rest =>
      let st :=
        if Py.truthy option then
          let n := overlap best_words (word_set option) in
          if (fst st <? n)%nat then (n, Some i) else st
        else st in
      fuzzy_match best_words (S i) rest st
  end.

Definition click_best_answer (best_answer : string) (answer_options : list string)
                             (button_positions : list position)
                             (answers_area_offset : position) : bool :=
  if negb (Py.truthy best_answer) || Py.is_nil answer_options then false
  else
    let answer_index := find_containing (Py.lower best_answer) 0 answer_options in
    let answer_index :=
      match answer_index with
      | Some i => Some i
      | None => snd (fuzzy_match (word_set best_answer) 0 answer_options (0%nat, None))
      end in
    match answer_index with
    | Some i => click_answer i button_positions answers_area_offset
    | None => false
    end.

(** The test of the first loop: the option is not empty and contains [bl]. *)
Definition holds (bl : string) (o : string) : bool :=
  Py.truthy o && Py.contains (Py.lower o) bl.

(** The value of [answer_index] when [click_best_answer] reaches its last
    test: [None] stands for -1. *)
Definition answer_index (best_answer : string) (answer_options : list string) : option nat :=
  match find_containing (Py.lower best_answer) 0 answer_options with
  | Some i => Some i
  | None => snd (fuzzy_match (word_set best_answer) 0 answer_options (0%nat, None))
  end.

End Desktop.

End AutoClicker.

(* ================================================================== *)
(** ** screen_capture.py *)
(* ================================================================== *)

Module ScreenCapture.

Local Open Scope Z_scope.

(** [int(height * 0.4)] for a height that is not negative: the row where
    the question area ends and the answers area starts. *)
Definition split_row (height : Z) : Z := height * 2 / 5.

(** The shapes [(height, width)] of the two slices of a capture of shape
    [(height, width)]: [full_capture[0:int(height * 0.4), 0:width]] and
    [full_capture[int(height * 0.4):height, 0:width]]. *)
Definition question_area_shape (height width : Z) : Z * Z :=
  (split_row height - 0, width - 0).

Definition answers_area_shape (height width : Z) : Z * Z :=
  (height - split_row height, width - 0).

End ScreenCapture.

(* ================================================================== *)
(** ** answer_searcher.py *)
(* ================================================================== *)

Module AnswerSearcher.

Local Open Scope Q_scope.

Record search_result := mk_result { title : string; url : string; snippet : string }.

(** *** A [dict] from [str] to [float], in insertion order *)

Definition dict : Type := list (string * Q).

Fixpoint dict_get (k : string) (d : dict) : option Q :=
  match d with
  | [] => None
  | (k', v) :: r => if String.eqb k k' then Some v else dict_get k r
  end.

(** [d[k] = v]: in place when [k] is a key, at the end otherwise. *)
Fixpoint dict_set (k : string) (v : Q) (d : dict) : dict :=
  match d with
  | [] => [(k, v)]
  | (k', v') :: r => if String.eqb k k' then (k, v) :: r else (k', v') :: dict_set k v r
  end.

(** [d[k] += x] for a key of [d]. *)
Fixpoint dict_add (k : string) (x : Q) (d : dict) : dict :=
  match d with
  | [] => []
  | (k', v) :: r => if String.eqb k k' then (k', v + x) :: r else (k', v) :: dict_add k x r
  end.

Definition keys (d : dict) : list string := map fst d.
Definition values (d : dict) : list Q := map snd d.

(** The keys after [d[k] = v], from the keys of [d]. *)
Definition add_key (acc : list string) (k : string) : list string :=
  if existsb (String.eqb k) acc then acc else acc ++ [k].

(** Every score is at least 0, resp. is 0. *)
Definition nonneg (d : dict) : Prop := forall k v, In (k, v) d -> 0 <= v.
Definition all_zero (d : dict) : Prop := forall k v, In (k, v) d -> v == 0.

Definition Qlt_bool (x y : Q) : bool := negb (Qle_bool y x).

(** [max(l)]: the first greatest element. *)
Fixpoint max_from (m : Q) (l : list Q) : Q :=
  match l with
  | [] => m
  | x :: r => max_from (if Qlt_bool m x then x else m) r
  end.

(** [max(items, key=lambda x: x[1])]: the first item of greatest value. *)
Fixpoint max_item_from (m : string * Q) (l : dict) : string * Q :=
  match l with
  | [] => m
  | x :: r => max_item_from (if Qlt_bool (snd m) (snd x) then x else m) r
  end.

Definition of_nat (n : nat) : Q := inject_Z (Z.of_nat n).

(** *** The module *)

Definition filler_words : list string :=
  ["which"; "what"; "who"; "where"; "when"; "how"; "the following"].

Definition is_final_punctuation (c : ascii) : bool :=
  existsb (Ascii.eqb c) ["?"; "!"; "."]%char.

Definition clean_query (question : string) : string :=
  if negb (Py.truthy question) then ""
  else
    let cleaned := Py.collapse_ws (Py.strip question) in
    let cleaned := Py.drop_trailing is_final_punctuation cleaned in
    let words := Py.split (Py.lower cleaned) in
    let words := filter (fun word => negb (existsb (String.eqb word) filler_words)) words in
    Py.join " " words.

(** The entries of [filler_words] that are single words. *)
Definition filler_single_words : list string :=
  ["which"; "what"; "who"; "where"; "when"; "how"].

Definition educational_sites : list string :=
  [ "site:quizlet.com"; "site:khanacademy.org"; "site:coursehero.com";
    "site:chegg.com"; "site:wikipedia.org" ].

(** The four context patterns, the option text escaped into them. *)
Inductive pattern : Type :=
| Literal (s : string)
| DotStar (a b : string).

Definition findall_count (p : pattern) (text : string) : nat :=
  match p with
  | Literal s => Py.count text s
  | DotStar a b => Py.findall_dotstar a b text
  end.

Definition patterns (option_lower : string) : list pattern :=
  [ Literal ("answer is " ++ option_lower);
    DotStar "correct answer" option_lower;
    DotStar option_lower "is correct";
    DotStar "solution" option_lower ].

Definition combine_text (search_results : list search_result) : string :=
  fold_left (fun all_text result =>
               (all_text ++ " " ++ title result ++ " " ++ snippet result)%string)
            search_results "".

(** One turn of the loop [for option in answer_options]. *)
Definition score_option (all_text : string) (answer_scores : dict) (option : string) : dict :=
  if negb (Py.truthy option) then answer_scores
  else
    let option_lower := Py.lower option in
    let direct_mentions := Py.count all_text option_lower in
    let answer_scores := dict_add option (of_nat direct_mentions * 2) answer_scores in
    let option_words := Py.split option_lower in
    let answer_scores :=
      fold_left (fun d word =>
                   if (2 <? String.length word)%nat
                   then dict_add option (of_nat (Py.count all_text word) * (1 # 2)) d
                   else d)
                option_words answer_scores in
    fold_left (fun d p => dict_add option (of_nat (findall_count p all_text) * 5) d)
              (patterns option_lower) answer_scores.

(** [{option: 0.0 for option in answer_options}] *)
Definition zero_scores (answer_options : list string) : dict :=
  fold_left (fun d option => dict_set option 0 d) answer_options [].

(** The scores before the step [# Normalize scores]. *)
Definition raw_scores (search_results : list search_result)
                      (answer_options : list string) : dict :=
  let all_text := Py.lower (combine_text search_results) in
  fold_left (score_option all_text) answer_options (zero_scores answer_options).

(** [max(answer_scores.values()) if answer_scores.values() else 1] *)
Definition max_score (answer_scores : dict) : Q :=
  match values answer_scores with
  | [] => 1
  | v :: vs => max_from v vs
  end.

Definition normalize (answer_scores : dict) : dict :=
  let max_score := max_score answer_scores in
  if Qlt_bool 0 max_score
  then map (fun kv => (fst kv, snd kv / max_score)) answer_scores
  else answer_scores.

Definition extract_potential_answers (search_results : list search_result)
                                     (answer_options : list string) : dict :=
  let answer_scores := zero_scores answer_options in
  if Py.is_nil search_results || Py.is_nil answer_options then answer_scores
  else normalize (raw_scores search_results answer_options).

(** The score of option [o] in the map [scores] equals [c]. *)
Definition scores_equal (scores : dict) (c : Q) (o : string) : bool :=
  match dict_get o scores with
  | Some v => Qeq_bool v c
  | None => false
  end.

Section Web.

(** [self.search_google]: the search and the page fetches. Its body is one
    [try] block whose handler returns the empty list, so it never raises. *)
Variable search_google : string -> nat -> list search_result.

Definition search_educational_sites (query : string) : list search_result :=
  flat_map (fun site => search_google (query ++ " " ++ site)%string 2%nat)
           educational_sites.

(** The query of [find_best_answer]: the cleaned question, then the
    options. *)
Definition search_query (question : string) (answer_options : list string) : string :=
  let search_query := clean_query question in
  if Py.is_nil answer_options then search_query
  else (search_query ++ " " ++ Py.join " " answer_options)%string.

(** The results it scores: the general search, then the educational sites. *)
Definition all_results (search_query : string) : list search_result :=
  let general_results := search_google search_query 3%nat in
  let educational_results := search_educational_sites search_query in
  general_results ++ educational_results.

(** The [try] block of [find_best_answer]: [Ok (Some r)] when it returns
    [r], [Ok None] when it runs to its end. No call in it raises:
    the searches handle their own exceptions and the scoring is total. *)
Definition find_best_answer_try (search_query : string)
                                (answer_options : list string)
  : exc (option (string * Q)) :=
  let scores := extract_potential_answers (all_results search_query) answer_options in
  match scores with
  | [] => Ok None
  | item :: items => Ok (Some (max_item_from item items))
  end.

(** The last statement of [find_best_answer]. *)
Definition fallback (answer_options : list string) : string * Q :=
  (match answer_options with [] => ""%string | o :: _ => o end, 1 # 10).

Definition find_best_answer (question : string) (answer_options : list string)
  : string * Q :=
  if negb (Py.truthy question) || Py.is_nil answer_options then (""%string, 0)
  else
    match find_best_answer_try (search_query question answer_options) answer_options with
    | Ok (Some best_answer) => best_answer
    | Ok None | Raised => fallback answer_options
    end.

(** The score map [find_best_answer] builds for a question. *)
Definition scores_for (question : string) (answer_options : list string) : dict :=
  extract_potential_answers (all_results (search_query question answer_options))
                            answer_options.

End Web.

End AnswerSearcher.

(* ================================================================== *)
(** ** kahoot_agent.py *)
(* ================================================================== *)

Module KahootAgent.

(** The attributes of a [KahootAgent] that a cycle reads or writes. *)
Record agent := mk_agent {
  auto_click : bool;
  running : bool;
  min_confidence : Q;
  scan_interval : Q;
  last_question : string;
  question_count : nat
}.

(** [KahootAgent.__init__] *)
Definition init (auto_click : bool) : agent :=
  mk_agent auto_click false (3 # 10) 2 "" 0.

Definition set_last_question (q : string) (a : agent) : agent :=
  mk_agent (auto_click a) (running a) (min_confidence a) (scan_interval a)
           q (question_count a).

Definition incr_question_count (a : agent) : agent :=
  mk_agent (auto_click a) (running a) (min_confidence a) (scan_interval a)
           (last_question a) (question_count a + 1).

(** The four objects an agent holds, as one cycle sees them. *)
Record collaborators := mk_collaborators {
  (* self.screen_capture *)
  capture_question_area : option image;
  capture_answers_area : option image;
  monitor_height : Z;
  (* self.ocr_extractor *)
  extract_question : option image -> exc (option string);
  extract_answers : option image -> exc (list string);
  (* self.answer_searcher *)
  find_best_answer : string -> list string -> string * Q;
  (* self.auto_clicker *)
  find_answer_buttons : option image -> list string -> list position;
  find_color_coded_answers : option image -> list position;
  click_best_answer : string -> list string -> list position -> position -> bool
}.

(** The calls a cycle makes on its collaborators, in order. *)
Inductive call : Type :=
| Capture
| ExtractQuestion
| ExtractAnswers
| FindAnswerButtons
| FindColorCodedAnswers
| FindBestAnswer (question : string) (answer_options : list string)
| ClickBestAnswer (best_answer : string) (answer_options : list string)
                  (button_positions : list position) (offset : position).

Definition is_search (c : call) : bool :=
  match c with FindBestAnswer _ _ => true | _ => false end.

Definition is_click (c : call) : bool :=
  match c with ClickBestAnswer _ _ _ _ => true | _ => false end.

(** *** The monad of a cycle: agent state, log of calls, exceptions *)

Definition M (A : Type) : Type := agent -> list call -> exc A * agent * list call.

Definition ret {A} (a : A) : M A := fun s l => (Ok a, s, l).

Definition bind {A B} (m : M A) (k : A -> M B) : M B :=
  fun s l =>
    match m s l with
    | (Ok a, s', l') => k a s' l'
    | (Raised, s', l') => (Raised, s', l')
    end.

Definition get : M agent := fun s l => (Ok s, s, l).
Definition modify (f : agent -> agent) : M unit := fun s l => (Ok tt, f s, l).
Definition tell (c : call) : M unit := fun s l => (Ok tt, s, l ++ [c]).
Definition lift {A} (e : exc A) : M A := fun s l => (e, s, l).

(** [try: body / except Exception: handler] *)
Definition try_except {A} (body handler : M A) : M A :=
  fun s l =>
    match body s l with
    | (Ok a, s', l') => (Ok a, s', l')
    | (Raised, s', l') => handler s' l'
    end.

Notation "x <- m ;; k" := (bind m (fun x => k))
  (at level 61, m at next level, right associativity).
Notation "m ;; k" := (bind m (fun _ => k))
  (at level 61, right associativity).

Definition truthy_opt (q : option string) : bool :=
  match q with None => false | Some s => Py.truthy s end.

Definition text_of (q : option string) : string :=
  match q with None => "" | Some s => s end.

(** The condition of the statement [if ... : # Auto-click]. *)
Definition should_click (auto_click : bool) (confidence min_confidence : Q)
                        (button_positions : list position) : bool :=
  auto_click && Qle_bool min_confidence confidence && negb (Py.is_nil button_positions).

Section Cycle.

Variable C : collaborators.

(** The two [cv2.imwrite] calls that save the debug images are left out:
    they write files and feed nothing back into the cycle. *)
Definition capture_and_analyze
  : M (option string * list string * list position) :=
  tell Capture ;;
  let question_img := capture_question_area C in
  let answers_img := capture_answers_area C in
  match question_img, answers_img with
  | Some _, Some _ =>
      tell ExtractQuestion ;;
      question <- lift (extract_question C question_img) ;;
      if negb (truthy_opt question) then ret (None, [], [])
      else
        tell ExtractAnswers ;;
        answer_options <- lift (extract_answers C answers_img) ;;
        if Py.is_nil answer_options then ret (question, [], [])
        else
          tell FindAnswerButtons ;;
          let button_positions := find_answer_buttons C answers_img answer_options in
          button_positions <-
            (if Py.is_nil button_positions
             then tell FindColorCodedAnswers ;;
                  ret (find_color_coded_answers C answers_img)
             else ret button_positions) ;;
          ret (question, answer_options, button_positions)
  | _, _ => ret (None, [], [])
  end.

Definition search_for_answer (question : string) (answer_options : list string)
  : M (string * Q) :=
  tell (FindBestAnswer question answer_options) ;;
  ret (find_best_answer C question answer_options).

Definition process_question : M bool :=
  try_except
    (captured <- capture_and_analyze ;;
     let '(question, answer_options, button_positions) := captured in
     if negb (truthy_opt question) || Py.is_nil answer_options then ret false
     else
       let question := text_of question in
       self <- get ;;
       if String.eqb question (last_question self) then ret true
       else
         modify (set_last_question question) ;;
         modify incr_question_count ;;
         found <- search_for_answer question answer_options ;;
         let '(best_answer, confidence) := found in
         if negb (Py.truthy best_answer) then ret false
         else
           (if should_click (auto_click self) confidence (min_confidence self)
                            button_positions
            then
              let answers_area_offset := (0, monitor_height C * 2 / 5)%Z in
              tell (ClickBestAnswer best_answer answer_options
                                    button_positions answers_area_offset) ;;
              let success := click_best_answer C best_answer answer_options
                                               button_positions answers_area_offset in
              ret success
            else ret false) ;;
           ret true)
    (ret false).

End Cycle.

(** One cycle from state [self]: the value returned, the state and the
    calls made. [process_question] handles every exception, so the value
    [false] stands for an exception that would escape (there is none). *)
Definition cycle (C : collaborators) (self : agent) : bool * agent * list call :=
  match process_question C self [] with
  | (Ok b, s, l) => (b, s, l)
  | (Raised, s, l) => (false, s, l)
  end.

Definition result (r : bool * agent * list call) : bool := fst (fst r).
Definition state (r : bool * agent * list call) : agent := snd (fst r).
Definition calls (r : bool * agent * list call) : list call := snd r.

(** *** The agent with the collaborators of the repository *)

(** What lies outside the program during one cycle. *)
Record world := mk_world {
  question_img : option image;          (* screen_capture.capture_question_area() *)
  answers_img : option image;           (* screen_capture.capture_answers_area() *)
  primary_height : Z;                   (* sct.monitors[1]["height"] *)
  recognize : image -> exc string;      (* the recognizer back end *)
  color_centroids : image -> list position;
  web : string -> nat -> list AnswerSearcher.search_result;
  pointer_click : Z -> Z -> exc unit
}.

Definition real (w : world) : collaborators :=
  mk_collaborators
    (question_img w) (answers_img w) (primary_height w)
    (OCRExtractor.extract_question (recognize w))
    (OCRExtractor.extract_answers (recognize w))
    (AnswerSearcher.find_best_answer (web w))
    AutoClicker.find_answer_buttons
    (AutoClicker.find_color_coded_answers (color_centroids w))
    (AutoClicker.click_best_answer (pointer_click w)).

(** *** Vocabulary of the properties *)

(** In this cycle the question [q] and the options [opts] are recognized. *)
Definition recognizes (C : collaborators) (q : string) (opts : list string) : Prop :=
  exists qi ai,
    capture_question_area C = Some qi /\ capture_answers_area C = Some ai /\
    extract_question C (Some qi) = Ok (Some q) /\
    extract_answers C (Some ai) = Ok opts.

(** The button positions [capture_and_analyze] returns for these options. *)
Definition positions_of (C : collaborators) (opts : list string) : list position :=
  let found := find_answer_buttons C (capture_answers_area C) opts in
  if Py.is_nil found then find_color_coded_answers C (capture_answers_area C) else found.

(** The calls a cycle makes up to the end of [capture_and_analyze] when a
    question and options are recognized. *)
Definition capture_calls (C : collaborators) (opts : list string) : list call :=
  [Capture; ExtractQuestion; ExtractAnswers; FindAnswerButtons] ++
  (if Py.is_nil (find_answer_buttons C (capture_answers_area C) opts)
   then [FindColorCodedAnswers] else []).

(** The cycle invoked the searcher (evidence gathering and scoring), resp.
    the click action. *)
Definition searched (r : bool * agent * list call) : bool := existsb is_search (calls r).
Definition clicked (r : bool * agent * list call) : bool := existsb is_click (calls r).

(** *** Several cycles *)

Definition set_running (b : bool) (a : agent) : agent :=
  mk_agent (auto_click a) b (min_confidence a) (scan_interval a)
           (last_question a) (question_count a).

(** The calls [self.process_question()] of the loop of [run_continuous],
    one for each element of [screens]: the collaborators as they answer
    during that cycle. The state and all the calls made come back. *)
Fixpoint cycles (screens : list collaborators) (self : agent) : agent * list call :=
  match screens with
  | [] => (self, [])
  | C :: rest =>
      let r := cycle C self in
      let '(final, log) := cycles rest (state r) in
      (final, calls r ++ log)
  end.

(** [run_continuous], the interrupt arriving during the [time.sleep] that
    follows the last cycle of [screens]. *)
Definition run_continuous (screens : list collaborators) (self : agent)
  : agent * list call :=
  let self := set_running true self in
  let '(self, log) := cycles screens self in
  (set_running false self, log).

(** [run_single]: the value of its one cycle. *)
Definition run_single (C : collaborators) (self : agent) : bool * agent * list call :=
  cycle C self.

Definition count_calls (p : call -> bool) (l : list call) : nat :=
  List.length (filter p l).

(** The state after a cycle that searched. *)
Definition searched_state (q : string) (self : agent) : agent :=
  incr_question_count (set_last_question q self).

(** The five ways a cycle ends. *)
Inductive outcome (C : collaborators) (self : agent)
  : bool * agent * list call -> Prop :=
| Unrecognized l :
    filter is_search l = [] -> filter is_click l = [] ->
    outcome C self (false, self, l)
| SameQuestion q opts :
    recognizes C q opts -> q = last_question self ->
    outcome C self (true, self, capture_calls C opts)
| NoAnswer q opts :
    recognizes C q opts -> q <> last_question self ->
    Py.truthy (fst (find_best_answer C q opts)) = false ->
    outcome C self (false, searched_state q self,
                  capture_calls C opts ++ [FindBestAnswer q opts])
| Clicked q opts :
    recognizes C q opts -> q <> last_question self ->
    Py.truthy (fst (find_best_answer C q opts)) = true ->
    auto_click self = true ->
    (min_confidence self <= snd (find_best_answer C q opts))%Q ->
    positions_of C opts <> [] ->
    outcome C self (true, searched_state q self,
                  capture_calls C opts ++
                  [FindBestAnswer q opts;
                   ClickBestAnswer (fst (find_best_answer C q opts)) opts
                                   (positions_of C opts)
                                   (0, monitor_height C * 2 / 5)%Z])
| Recommended q opts :
    recognizes C q opts -> q <> last_question self ->
    Py.truthy (fst (find_best_answer C q opts)) = true ->
    should_click (auto_click self) (snd (find_best_answer C q opts))
                 (min_confidence self) (positions_of C opts) = false ->
    outcome C self (true, searched_state q self,
                  capture_calls C opts ++ [FindBestAnswer q opts]).

End KahootAgent.

(* ================================================================== *)
(** ** A scenario: the capital of France *)
(* ================================================================== *)

Module Scenario.

Import AnswerSearcher.
Local Open Scope Q_scope.

Definition france_results : list search_result :=
  [ mk_result "Capital of France" "https://example.org/france"
              "The answer is Paris. London is in England" ].

Definition france_web (query : string) (num_results : nat) : list search_result :=
  match num_results with
  | 3%nat => france_results
  | _ => []
  end.

Definition france_options : list string := ["London"; "Berlin"; "Paris"; "Madrid"].

Definition question_image : image := mk_image 400 800 [1%Z].
Definition answers_image : image := mk_image 600 800 [2%Z].

Definition france_question : string := "What is the capital of France?".

(** A recognizer that reads the question in the first image and four
    enumerated options, one per line, in any other image. *)
Definition france_recognizer (img : image) : exc string :=
  match pixels img with
  | [1%Z] => Ok "What is the capital of France"%string
  | _ => Ok ("A) London" ++ String OCRExtractor.LF "B) Berlin"
             ++ String OCRExtractor.LF "C) Paris"
             ++ String OCRExtractor.LF "D) Madrid")%string
  end.

(** A recognizer that reads the question and finds no text in the options. *)
Definition blind_recognizer (img : image) : exc string :=
  match pixels img with
  | [1%Z] => Ok "What is the capital of France"%string
  | _ => Ok ""%string
  end.

Definition world_with (recognizer : image -> exc string)
                      (web : string -> nat -> list search_result) : KahootAgent.world :=
  KahootAgent.mk_world (Some question_image) (Some answers_image) 1080
    recognizer (fun _ => []) web (fun _ _ => Ok tt).

Definition france_world : KahootAgent.world := world_with france_recognizer france_web.
Definition silent_world : KahootAgent.world := world_with france_recognizer (fun _ _ => []).
Definition blind_world : KahootAgent.world := world_with blind_recognizer france_web.
Definition broken_world : KahootAgent.world := world_with (fun _ => Raised) france_web.

(** Stand-ins for the collaborators: the searcher answers [found], the
    localizer answers [positions]. *)
Definition stub (found : string * Q) (positions : list position)
  : KahootAgent.collaborators :=
  KahootAgent.mk_collaborators
    (Some question_image) (Some answers_image) 1080
    (fun _ => Ok (Some france_question))
    (fun _ => Ok france_options)
    (fun _ _ => found)
    (fun _ _ => positions)
    (fun _ => [])
    (fun _ _ _ _ => true).

(** A reader that reports one faint region, at the threshold itself. *)
Definition faint_reader (img : image) : exc (list OCRExtractor.region) :=
  Ok [([(0, 0); (10, 0); (10, 5); (0, 5)]%Z, "Paris"%string, 3 # 10)].

(** An agent with auto-click enabled and the given threshold. *)
Definition clicking_agent (min_confidence : Q) : KahootAgent.agent :=
  KahootAgent.mk_agent true false min_confidence 2 "" 0.

End Scenario.

(* ================================================================== *)
(** * Properties *)
(* ================================================================== *)

(** ** Text primitives *)

Lemma truthy_String (c : ascii) (s : string) : Py.truthy (String c s) = true.
Proof. reflexivity. Qed.

Lemma truthy_not_empty (s : string) : Py.truthy s = true <-> s <> "".
Proof.
  destruct s; simpl; split; intro H; congruence.
Qed.

Lemma is_nil_true {A} (l : list A) : Py.is_nil l = true <-> l = [].
Proof. destruct l; simpl; split; congruence. Qed.

Lemma is_nil_false {A} (l : list A) : Py.is_nil l = false <-> l <> [].
Proof. destruct l; simpl; split; congruence. Qed.

(** Every token of [s.split()] is a non-empty string. *)
Lemma split_truthy (s w : string) : In w (Py.split s) -> Py.truthy w = true.
Proof.
  revert w; induction s as [|c r IH]; intros w Hin; simpl in Hin.
  - contradiction.
  - destruct (Py.is_space c).
    + auto.
    + destruct r as [|d r'].
      * destruct Hin as [<-|[]]; reflexivity.
      * destruct (Py.is_space d).
        -- destruct Hin as [<-|Hin]; [reflexivity | auto].
        -- destruct (Py.split (String d r')) as [|h t].
           ++ destruct Hin as [<-|[]]; reflexivity.
           ++ destruct Hin as [<-|Hin]; [reflexivity|].
              apply IH; right; exact Hin.
Qed.

Lemma In_firstn {A} (n : nat) (l : list A) (x : A) : In x (firstn n l) -> In x l.
Proof.
  intros H. rewrite <- (firstn_skipn n l). apply in_or_app. now left.
Qed.

Lemma join_truthy (sep x : string) (r : list string) :
  Py.truthy x = true -> Py.truthy (Py.join sep (x :: r)) = true.
Proof.
  destruct x as [|c x]; [discriminate|]; intros _.
  unfold Py.join; simpl. destruct r; reflexivity.
Qed.

(** ** ocr_extractor.py *)

(** The loop over the lines computes the usable fragments. *)
Lemma fold_parse_line (lines acc : list string) :
  fold_left OCRExtractor.parse_line lines acc =
  acc ++ filter Py.truthy
           (map OCRExtractor.strip_enumerators
              (filter (fun l => (2 <? String.length l)%nat) (map Py.strip lines))).
Proof.
  revert acc; induction lines as [|line lines IH]; intros acc; simpl.
  - now rewrite app_nil_r.
  - rewrite IH. unfold OCRExtractor.parse_line at 1.
    destruct (2 <? String.length (Py.strip line))%nat; [|reflexivity].
    simpl. fold (OCRExtractor.strip_enumerators (Py.strip line)).
    destruct (Py.truthy (OCRExtractor.strip_enumerators (Py.strip line))); simpl.
    + now rewrite <- app_assoc.
    + reflexivity.
Qed.

Lemma fragments_truthy (raw_text o : string) :
  In o (OCRExtractor.fragments raw_text) -> Py.truthy o = true.
Proof. unfold OCRExtractor.fragments. intros H. apply filter_In in H. tauto. Qed.

(** The comprehension over [range(0, min(len(words), 12), 3)] makes the
    groups of three of the first twelve words. *)
Lemma slices_are_chunks (words : list string) :
  map (fun i => Py.join " " (Py.slice words i (i + 3)))
      (Py.range 0 (Nat.min (List.length words) 12) 3)
  = map (Py.join " ") (OCRExtractor.chunk3 (firstn 12 words)).
Proof.
  do 12 (destruct words as [|? words]; [reflexivity|]).
  cbn [List.length Nat.min].
  rewrite Nat.min_0_r. reflexivity.
Qed.

Lemma chunk3_heads {A} (n : nat) (l : list A) :
  (List.length l <= n)%nat ->
  forall c, In c (OCRExtractor.chunk3 l) -> exists x r, c = x :: r /\ In x l.
Proof.
  revert l; induction n as [|n IH]; intros l Hl c Hc.
  - destruct l; simpl in *; [contradiction | lia].
  - destruct l as [|a [|b [|d r]]]; simpl in Hc.
    + contradiction.
    + destruct Hc as [<-|[]]. exists a, []. simpl; auto.
    + destruct Hc as [<-|[]]. exists a, [b]. simpl; auto.
    + destruct Hc as [<-|Hc].
      * exists a, [b; d]. simpl; auto.
      * apply IH in Hc; [|simpl in Hl; lia].
        destruct Hc as (x & r' & -> & Hx). exists x, r'. simpl; auto.
Qed.

Lemma chunked_truthy (raw_text o : string) :
  In o (OCRExtractor.chunked raw_text) -> Py.truthy o = true.
Proof.
  unfold OCRExtractor.chunked. intros H. apply in_map_iff in H.
  destruct H as (c & <- & Hc).
  apply (chunk3_heads (List.length (firstn 12 (Py.split raw_text)))) in Hc; [|lia].
  destruct Hc as (x & r & -> & Hx).
  apply join_truthy. apply (split_truthy raw_text).
  eapply In_firstn; eassumption.
Qed.

(** Every option [parse_answer_options] returns is a non-empty string. *)
Lemma parse_answer_options_eq (raw_text : string) :
  OCRExtractor.parse_answer_options raw_text =
  firstn 4
    (if (List.length (OCRExtractor.fragments raw_text) <? 2)%nat
        && (4 <=? List.length (Py.split raw_text))%nat
     then OCRExtractor.chunked raw_text
     else OCRExtractor.fragments raw_text).
Proof.
  unfold OCRExtractor.parse_answer_options.
  destruct raw_text as [|c r]; [reflexivity|].
  cbn [Py.truthy negb].
  rewrite fold_parse_line. cbn [app].
  fold (OCRExtractor.fragments (String c r)).
  destruct (List.length (OCRExtractor.fragments (String c r)) <? 2)%nat; [|reflexivity].
  cbn [andb].
  destruct (4 <=? List.length (Py.split (String c r)))%nat; [|reflexivity].
  now rewrite slices_are_chunks.
Qed.

Lemma parse_answer_options_truthy (raw_text o : string) :
  In o (OCRExtractor.parse_answer_options raw_text) -> Py.truthy o = true.
Proof.
  rewrite parse_answer_options_eq. intros H. apply In_firstn in H.
  destruct (_ && _); [eapply chunked_truthy | eapply fragments_truthy]; eassumption.
Qed.

Lemma extract_question_truthy (rec : image -> exc string) (img : option image) (q : string) :
  OCRExtractor.extract_question rec img = Ok (Some q) -> Py.truthy q = true.
Proof.
  unfold OCRExtractor.extract_question.
  destruct img as [i|]; [|discriminate].
  destruct (rec i) as [text|]; [|discriminate].
  destruct (Py.truthy (OCRExtractor.clean_question_text text)) eqn:E; intros H; inversion H.
  now subst.
Qed.

Lemma extract_answers_truthy (rec : image -> exc string) (img : option image)
      (opts : list string) (o : string) :
  OCRExtractor.extract_answers rec img = Ok opts -> In o opts -> Py.truthy o = true.
Proof.
  unfold OCRExtractor.extract_answers.
  destruct img as [i|].
  - destruct (rec i) as [text|]; [|discriminate].
    intros H; inversion H; subst. apply parse_answer_options_truthy.
  - intros H; inversion H; subst. contradiction.
Qed.

(** The letter pattern makes the parenthesis optional, so an option that
    starts with A, B, C or D loses its first letter. *)
Example strip_letter_takes_initial :
  OCRExtractor.parse_answer_options
    ("London" ++ String OCRExtractor.LF "Berlin" ++ String OCRExtractor.LF "Paris")
  = ["London"; "erlin"; "Paris"].
Proof. reflexivity. Qed.



(** C7, the claim as worded fails: when the recognizer raises, the
    exception leaves [extract_question] and [extract_answers]. *)
Lemma extract_question_propagates :
  let img := mk_image 600 800 [] in
  OCRExtractor.extract_question (fun _ => Raised) (Some img) <> Ok None /\
  OCRExtractor.extract_answers (fun _ => Raised) (Some img) <> Ok [].
Proof. split; discriminate. Qed.

(** C2: for an image of width W and height H and n >= 1 options,
    [find_answer_buttons] returns exactly min(n,4) positions, the first
    min(n,4) of (W/4,H/4), (3W/4,H/4), (W/4,3H/4), (3W/4,3H/4), the
    divisions being integer divisions; an 800 x 600 image with four
    options gives [(200,150); (600,150); (200,450); (600,450)]. *)
Theorem find_answer_buttons_quadrants (img : image) (answer_options : list string) :
  (1 <= List.length answer_options)%nat ->
  let W := width img in
  let H := height img in
  let n := List.length answer_options in
  (AutoClicker.find_answer_buttons (Some img) answer_options =
     firstn (Nat.min n 4)
       [ (W / 4, H / 4); (3 * W / 4, H / 4);
         (W / 4, 3 * H / 4); (3 * W / 4, 3 * H / 4) ]
   /\ List.length (AutoClicker.find_answer_buttons (Some img) answer_options) = Nat.min n 4
   /\ (W = 800 -> H = 600 -> n = 4%nat ->
       AutoClicker.find_answer_buttons (Some img) answer_options =
         [ (200, 150); (600, 150); (200, 450); (600, 450) ]))%Z.
Proof.
  intros Hn W H n.
  assert (E : AutoClicker.find_answer_buttons (Some img) answer_options =
              firstn (Nat.min n 4) (AutoClicker.quadrants H W)).
  { unfold AutoClicker.find_answer_buttons.
    destruct answer_options; [simpl in Hn; lia | reflexivity]. }
  split; [exact E|]. split.
  - rewrite E, length_firstn. simpl. lia.
  - intros HW HH Hn4. rewrite E, Hn4. unfold AutoClicker.quadrants.
    rewrite HW, HH. reflexivity.
Qed.

Lemma find_answer_buttons_quadrants_witness :
  AutoClicker.find_answer_buttons (Some (mk_image 600 800 []))
    ["London"; "Berlin"; "Paris"; "Madrid"]
  = [ (200, 150); (600, 150); (200, 450); (600, 450) ]%Z.
Proof.
  apply (find_answer_buttons_quadrants (mk_image 600 800 [])
           ["London"; "Berlin"; "Paris"; "Madrid"]); simpl; try reflexivity; lia.
Defined.

(** ** answer_searcher.py: dictionaries and maxima *)

Section ScoreFacts.

Import AnswerSearcher.
Local Open Scope Q_scope.

Lemma Qlt_bool_iff (x y : Q) : Qlt_bool x y = true <-> x < y.
Proof.
  unfold Qlt_bool. rewrite negb_true_iff, <- not_true_iff_false, Qle_bool_iff.
  split; [apply Qnot_le_lt | apply Qlt_not_le].
Qed.

Lemma Qlt_bool_false (x y : Q) : Qlt_bool x y = false <-> y <= x.
Proof.
  unfold Qlt_bool. rewrite negb_false_iff. apply Qle_bool_iff.
Qed.

(** A loop keeps what each of its turns keeps. *)
Lemma fold_left_keeps {A B} (P : A -> Prop) (f : A -> B -> A) (l : list B) (a : A) :
  (forall a b, P a -> P (f a b)) -> P a -> P (fold_left f l a).
Proof.
  intros Hf. revert a. induction l as [|b l IH]; simpl; auto.
Qed.

Lemma dict_get_In (k : string) (d : dict) (v : Q) : dict_get k d = Some v -> In (k, v) d.
Proof.
  induction d as [|[k' v'] d IH]; simpl; [discriminate|].
  destruct (String.eqb_spec k k') as [->|].
  - intros H; inversion H; auto.
  - auto.
Qed.

Lemma In_dict_get (k : string) (d : dict) (v : Q) :
  NoDup (keys d) -> In (k, v) d -> dict_get k d = Some v.
Proof.
  induction d as [|[k' v'] d IH]; simpl; [contradiction|].
  intros Hnd [H|H]; inversion Hnd as [|? ? Hnot Hnd']; subst.
  - inversion H; subst. now rewrite String.eqb_refl.
  - destruct (String.eqb_spec k k') as [->|]; [|auto].
    exfalso. apply Hnot. unfold keys. change k' with (fst (k', v)). now apply in_map.
Qed.

Lemma dict_get_key (k : string) (d : dict) :
  In k (keys d) -> exists v, dict_get k d = Some v.
Proof.
  induction d as [|[k' v'] d IH]; simpl; [contradiction|].
  destruct (String.eqb_spec k k') as [->|Hne].
  - eauto.
  - intros [H|H]; [congruence | auto].
Qed.

Lemma dict_get_some_key (k : string) (d : dict) (v : Q) :
  dict_get k d = Some v -> In k (keys d).
Proof.
  intros H. apply dict_get_In in H. unfold keys.
  change k with (fst (k, v)). now apply in_map.
Qed.

(** [d[k] += x] keeps the keys and their order. *)
Lemma dict_add_keys (k : string) (x : Q) (d : dict) : keys (dict_add k x d) = keys d.
Proof.
  induction d as [|[k' v'] d IH]; simpl; [reflexivity|].
  destruct (String.eqb k k'); simpl; [reflexivity | now rewrite IH].
Qed.

Lemma dict_add_nonneg (k : string) (x : Q) (d : dict) :
  0 <= x -> nonneg d -> nonneg (dict_add k x d).
Proof.
  intros Hx. induction d as [|[k' v'] d IH]; intros Hd; simpl; [exact Hd|].
  destruct (String.eqb k k').
  - intros k0 v0 [H|H].
    + inversion H; subst. specialize (Hd k0 v' (or_introl eq_refl)).
      rewrite <- (Qplus_0_r 0). now apply Qplus_le_compat.
    + apply (Hd k0 v0). now right.
  - intros k0 v0 [H|H].
    + apply (Hd k0 v0). now left.
    + apply IH with (k := k0); [|exact H].
      intros k1 v1 H1. apply (Hd k1 v1). now right.
Qed.

Lemma dict_add_all_zero (k : string) (x : Q) (d : dict) :
  x == 0 -> all_zero d -> all_zero (dict_add k x d).
Proof.
  intros Hx. induction d as [|[k' v'] d IH]; intros Hd; simpl; [exact Hd|].
  destruct (String.eqb k k').
  - intros k0 v0 [H|H].
    + inversion H; subst. rewrite Hx, (Hd k0 v' (or_introl eq_refl)). reflexivity.
    + apply (Hd k0 v0). now right.
  - intros k0 v0 [H|H].
    + apply (Hd k0 v0). now left.
    + apply IH with (k := k0); [|exact H].
      intros k1 v1 H1. apply (Hd k1 v1). now right.
Qed.

(** [d[k] = v] keeps the keys when [k] is one, and appends [k] otherwise. *)
Lemma dict_set_keys (k : string) (v : Q) (d : dict) :
  keys (dict_set k v d) = if existsb (String.eqb k) (keys d) then keys d else keys d ++ [k].
Proof.
  induction d as [|[k' v'] d IH]; simpl; [reflexivity|].
  destruct (String.eqb_spec k k') as [->|Hne]; simpl; [reflexivity|].
  rewrite IH. now destruct (existsb (String.eqb k) (keys d)).
Qed.

Lemma dict_set_zero (k : string) (d : dict) :
  (forall k' v, In (k', v) d -> v = 0) ->
  forall k' v, In (k', v) (dict_set k 0 d) -> v = 0.
Proof.
  induction d as [|[k1 v1] d IH]; simpl; intros Hd k' v.
  - intros [H|[]]. now inversion H.
  - destruct (String.eqb k k1).
    + intros [H|H]; [now inversion H | eapply Hd; right; exact H].
    + intros [H|H]; [eapply Hd; left; exact H|].
      eapply IH; [|exact H]. intros k2 v2 H2. eapply Hd. right. exact H2.
Qed.

Lemma existsb_eqb_In (k : string) (l : list string) :
  existsb (String.eqb k) l = true <-> In k l.
Proof.
  rewrite existsb_exists. split.
  - intros (x & Hx & E). apply String.eqb_eq in E. now subst.
  - intros H. exists k. split; [exact H | apply String.eqb_refl].
Qed.

End ScoreFacts.

Section ScoreMaps.

Import AnswerSearcher.
Local Open Scope Q_scope.

(** *** The zero map over the options *)

Lemma zero_scores_from_keys (options : list string) (d : dict) :
  keys (fold_left (fun d option => dict_set option 0 d) options d)
  = fold_left add_key options (keys d).
Proof.
  revert d; induction options as [|o options IH]; intros d; simpl; [reflexivity|].
  rewrite IH, dict_set_keys. reflexivity.
Qed.

Lemma add_keys_In (options acc : list string) (k : string) :
  In k (fold_left add_key options acc) <-> In k acc \/ In k options.
Proof.
  revert acc; induction options as [|o options IH]; intros acc; simpl; [tauto|].
  rewrite IH. unfold add_key.
  destruct (existsb (String.eqb o) acc) eqn:E.
  - apply existsb_eqb_In in E. split; [tauto|]. intros [H|[<-|H]]; auto.
  - rewrite in_app_iff. simpl. tauto.
Qed.

Lemma add_keys_NoDup (options acc : list string) :
  NoDup acc -> NoDup (fold_left add_key options acc).
Proof.
  revert acc; induction options as [|o options IH]; intros acc Hacc; simpl; [exact Hacc|].
  apply IH. unfold add_key.
  destruct (existsb (String.eqb o) acc) eqn:E; [exact Hacc|].
  apply NoDup_app; [exact Hacc | repeat constructor; auto |].
  intros x Hx [<-|[]]. apply existsb_eqb_In in Hx. congruence.
Qed.

Lemma find_app_dup {A} (P : A -> bool) (acc l : list A) (k : A) :
  In k acc -> find P (acc ++ k :: l) = find P (acc ++ l).
Proof.
  induction acc as [|a acc IH]; simpl; [contradiction|].
  intros [->|H].
  - destruct (P k) eqn:E; [reflexivity|].
    clear IH. induction acc as [|b acc IH]; simpl.
    + now rewrite E.
    + destruct (P b); [reflexivity | exact IH].
  - destruct (P a); [reflexivity | auto].
Qed.

(** The keys come in the order of first occurrence: searching them finds
    what searching the options finds. *)
Lemma find_add_keys (P : string -> bool) (options acc : list string) :
  find P (fold_left add_key options acc) = find P (acc ++ options).
Proof.
  revert acc; induction options as [|o options IH]; intros acc; simpl.
  - now rewrite app_nil_r.
  - rewrite IH. unfold add_key.
    destruct (existsb (String.eqb o) acc) eqn:E.
    + apply existsb_eqb_In in E. symmetry. now apply find_app_dup.
    + now rewrite <- app_assoc.
Qed.

Lemma zero_scores_keys (options : list string) (k : string) :
  In k (keys (zero_scores options)) <-> In k options.
Proof.
  unfold zero_scores. rewrite zero_scores_from_keys, add_keys_In. simpl. tauto.
Qed.

Lemma zero_scores_NoDup (options : list string) : NoDup (keys (zero_scores options)).
Proof.
  unfold zero_scores. rewrite zero_scores_from_keys. apply add_keys_NoDup. constructor.
Qed.

Lemma zero_scores_find (P : string -> bool) (options : list string) :
  find P (keys (zero_scores options)) = find P options.
Proof.
  unfold zero_scores. rewrite zero_scores_from_keys. apply find_add_keys.
Qed.

Lemma zero_scores_values (options : list string) (k : string) (v : Q) :
  In (k, v) (zero_scores options) -> v = 0.
Proof.
  unfold zero_scores.
  apply (fold_left_keeps (fun d => forall k v, In (k, v) d -> v = 0)).
  - intros d o Hd. now apply dict_set_zero.
  - intros ? ? [].
Qed.

Lemma zero_scores_get (options : list string) (o : string) :
  In o options -> dict_get o (zero_scores options) = Some 0.
Proof.
  intros H. apply zero_scores_keys in H. apply dict_get_key in H. destruct H as (v & E).
  rewrite E. f_equal. eapply zero_scores_values. eapply dict_get_In. exact E.
Qed.

(** *** The raw scores *)

Lemma of_nat_nonneg (n : nat) : 0 <= of_nat n.
Proof. unfold of_nat, Qle. simpl. lia. Qed.

Lemma score_option_keys (all_text : string) (d : dict) (option : string) :
  keys (score_option all_text d option) = keys d.
Proof.
  unfold score_option. destruct (Py.truthy option); [|reflexivity]. cbn [negb].
  apply (fold_left_keeps (fun d' => keys d' = keys d)).
  - intros a b <-. apply dict_add_keys.
  - apply (fold_left_keeps (fun d' => keys d' = keys d)).
    + intros a b <-. destruct (_ <? _)%nat; [apply dict_add_keys | reflexivity].
    + apply dict_add_keys.
Qed.

Lemma score_option_nonneg (all_text : string) (d : dict) (option : string) :
  nonneg d -> nonneg (score_option all_text d option).
Proof.
  intros Hd. unfold score_option. destruct (Py.truthy option); [|exact Hd]. cbn [negb].
  apply (fold_left_keeps nonneg).
  - intros a b Ha. apply dict_add_nonneg; [|exact Ha].
    apply Qmult_le_0_compat; [apply of_nat_nonneg | discriminate].
  - apply (fold_left_keeps nonneg).
    + intros a b Ha. destruct (_ <? _)%nat; [|exact Ha].
      apply dict_add_nonneg; [|exact Ha].
      apply Qmult_le_0_compat; [apply of_nat_nonneg | discriminate].
    + apply dict_add_nonneg; [|exact Hd].
      apply Qmult_le_0_compat; [apply of_nat_nonneg | discriminate].
Qed.

Lemma raw_scores_keys (results : list search_result) (options : list string) :
  keys (raw_scores results options) = keys (zero_scores options).
Proof.
  unfold raw_scores.
  apply (fold_left_keeps (fun d => keys d = keys (zero_scores options))).
  - intros a b <-. apply score_option_keys.
  - reflexivity.
Qed.

Lemma raw_scores_nonneg (results : list search_result) (options : list string) :
  nonneg (raw_scores results options).
Proof.
  unfold raw_scores. apply (fold_left_keeps nonneg).
  - intros a b. apply score_option_nonneg.
  - intros k v H. apply zero_scores_values in H. subst. apply Qle_refl.
Qed.

(** Without any search result the text is empty and nothing is counted. *)
Lemma count_in_empty (sub : string) : Py.truthy sub = true -> Py.count "" sub = 0%nat.
Proof. destruct sub; [discriminate | reflexivity]. Qed.

Lemma lower_truthy (s : string) : Py.truthy (Py.lower s) = Py.truthy s.
Proof. destruct s; reflexivity. Qed.

Lemma score_option_empty_text (d : dict) (option : string) :
  all_zero d -> all_zero (score_option "" d option).
Proof.
  intros Hd. unfold score_option. destruct (Py.truthy option) eqn:Ho; [|exact Hd]. cbn [negb].
  unfold patterns. cbn [fold_left].
  repeat (apply dict_add_all_zero; [reflexivity|]).
  apply (fold_left_keeps all_zero).
  - intros a w Ha. destruct (2 <? String.length w)%nat eqn:E; [|exact Ha].
    apply dict_add_all_zero; [|exact Ha].
    rewrite count_in_empty; [reflexivity|]. destruct w; [discriminate | reflexivity].
  - apply dict_add_all_zero; [|exact Hd].
    rewrite count_in_empty; [reflexivity|]. now rewrite lower_truthy.
Qed.

Lemma raw_scores_no_results (options : list string) : all_zero (raw_scores [] options).
Proof.
  unfold raw_scores. cbn [combine_text fold_left Py.lower].
  apply (fold_left_keeps all_zero).
  - intros a b. apply score_option_empty_text.
  - intros k v H. apply zero_scores_values in H. subst. reflexivity.
Qed.

End ScoreMaps.

Section Maxima.

Import AnswerSearcher.
Local Open Scope Q_scope.

(** *** [max] *)

Lemma max_from_ge_start (l : list Q) (m : Q) : m <= max_from m l.
Proof.
  revert m; induction l as [|x l IH]; intros m; simpl; [apply Qle_refl|].
  destruct (Qlt_bool m x) eqn:E.
  - apply Qlt_bool_iff in E. eapply Qle_trans; [apply Qlt_le_weak; exact E | apply IH].
  - apply IH.
Qed.

Lemma max_from_ge (l : list Q) (m x : Q) : In x (m :: l) -> x <= max_from m l.
Proof.
  revert m; induction l as [|y l IH]; intros m [<-|H]; simpl.
  - apply Qle_refl.
  - contradiction.
  - apply (max_from_ge_start (y :: l)).
  - destruct (Qlt_bool m y) eqn:E.
    + apply IH. destruct H as [<-|H]; [now left | now right].
    + destruct H as [<-|H].
      * apply Qlt_bool_false in E. eapply Qle_trans; [exact E | apply max_from_ge_start].
      * apply IH. now right.
Qed.

Lemma max_from_In (l : list Q) (m : Q) : In (max_from m l) (m :: l).
Proof.
  revert m; induction l as [|y l IH]; intros m; simpl; [now left|].
  destruct (Qlt_bool m y).
  - right. apply IH.
  - destruct (IH m) as [H|H]; [left; exact H | right; right; exact H].
Qed.

Lemma max_item_from_ge_start (l : dict) (m : string * Q) :
  snd m <= snd (max_item_from m l).
Proof.
  revert m; induction l as [|x l IH]; intros m; simpl; [apply Qle_refl|].
  destruct (Qlt_bool (snd m) (snd x)) eqn:E.
  - apply Qlt_bool_iff in E. eapply Qle_trans; [apply Qlt_le_weak; exact E | apply IH].
  - apply IH.
Qed.

Lemma max_item_from_ge (l : dict) (m x : string * Q) :
  In x (m :: l) -> snd x <= snd (max_item_from m l).
Proof.
  revert m; induction l as [|y l IH]; intros m [<-|H]; simpl.
  - apply Qle_refl.
  - contradiction.
  - apply (max_item_from_ge_start (y :: l)).
  - destruct (Qlt_bool (snd m) (snd y)) eqn:E.
    + apply IH. destruct H as [<-|H]; [now left | now right].
    + destruct H as [<-|H].
      * apply Qlt_bool_false in E.
        eapply Qle_trans; [exact E | apply max_item_from_ge_start].
      * apply IH. now right.
Qed.

Lemma max_item_from_In (l : dict) (m : string * Q) : In (max_item_from m l) (m :: l).
Proof.
  revert m; induction l as [|y l IH]; intros m; simpl; [now left|].
  destruct (Qlt_bool (snd m) (snd y)).
  - right. apply IH.
  - destruct (IH m) as [H|H]; [left; exact H | right; right; exact H].
Qed.

(** [max] returns the first item whose value reaches the greatest value. *)
Lemma max_item_from_first (l : dict) (m : string * Q) :
  find (fun kv => Qle_bool (snd (max_item_from m l)) (snd kv)) (m :: l)
  = Some (max_item_from m l).
Proof.
  revert m; induction l as [|x l IH]; intros m.
  - simpl. rewrite (proj2 (Qle_bool_iff _ _) (Qle_refl _)). reflexivity.
  - cbn [max_item_from]. destruct (Qlt_bool (snd m) (snd x)) eqn:E.
    + specialize (IH x). cbn [find] in IH |- *.
      assert (Hm : Qle_bool (snd (max_item_from x l)) (snd m) = false).
      { apply not_true_iff_false. rewrite Qle_bool_iff. apply Qlt_not_le.
        apply Qlt_bool_iff in E.
        eapply Qlt_le_trans; [exact E | apply max_item_from_ge_start]. }
      rewrite Hm. exact IH.
    + specialize (IH m). cbn [find] in IH |- *.
      destruct (Qle_bool (snd (max_item_from m l)) (snd m)) eqn:Hm; [exact IH|].
      assert (Hx : Qle_bool (snd (max_item_from m l)) (snd x) = false).
      { apply not_true_iff_false. rewrite Qle_bool_iff. intros Hle.
        apply Qlt_bool_false in E.
        apply not_true_iff_false in Hm. apply Hm. apply Qle_bool_iff.
        eapply Qle_trans; eassumption. }
      rewrite Hx. exact IH.
Qed.

Lemma find_ext_in {A} (P R : A -> bool) (l : list A) :
  (forall x, In x l -> P x = R x) -> find P l = find R l.
Proof.
  induction l as [|a l IH]; simpl; intros H; [reflexivity|].
  rewrite (H a (or_introl eq_refl)). destruct (R a); [reflexivity|].
  apply IH. intros x Hx. apply H. now right.
Qed.

Lemma find_map_fst {A B} (P : A -> bool) (l : list (A * B)) :
  find P (map fst l) = option_map fst (find (fun kv => P (fst kv)) l).
Proof.
  induction l as [|a l IH]; simpl; [reflexivity|].
  destruct (P (fst a)); [reflexivity | exact IH].
Qed.

(** *** Normalization *)

Lemma dict_get_map (f : Q -> Q) (k : string) (d : dict) :
  dict_get k (map (fun kv => (fst kv, f (snd kv))) d) = option_map f (dict_get k d).
Proof.
  induction d as [|[k' v'] d IH]; simpl; [reflexivity|].
  destruct (String.eqb k k'); [reflexivity | exact IH].
Qed.

Lemma normalize_keys (d : dict) : keys (normalize d) = keys d.
Proof.
  unfold normalize. destruct (Qlt_bool 0 _); [|reflexivity].
  unfold keys. rewrite map_map. reflexivity.
Qed.

Lemma max_score_ge (d : dict) (k : string) (v : Q) : In (k, v) d -> v <= max_score d.
Proof.
  intros H. unfold max_score.
  assert (Hv : In v (values d)) by (unfold values; change v with (snd (k, v)); now apply in_map).
  destruct (values d) as [|v0 vs]; [contradiction|]. now apply max_from_ge.
Qed.

Lemma max_score_In (d : dict) : d <> [] -> exists k, In (k, max_score d) d.
Proof.
  intros Hd. unfold max_score.
  destruct d as [|[k0 v0] d]; [congruence|]. cbn [values map snd].
  pose proof (max_from_In (map snd d) v0) as H.
  change (v0 :: map snd d) with (map snd ((k0, v0) :: d)) in H.
  apply in_map_iff in H. destruct H as ([k v] & E & H). simpl in E. subst v.
  exists k. exact H.
Qed.

Lemma normalize_get (d : dict) (k : string) :
  dict_get k (normalize d) =
  if Qlt_bool 0 (max_score d)
  then option_map (fun v => v / max_score d) (dict_get k d)
  else dict_get k d.
Proof.
  unfold normalize.
  destruct (Qlt_bool 0 (max_score d)); [|reflexivity].
  apply (dict_get_map (fun v => v / max_score d)).
Qed.

Lemma normalized_range (m v : Q) : 0 < m -> 0 <= v -> v <= m -> 0 <= v / m /\ v / m <= 1.
Proof.
  intros Hm Hv Hle. split.
  - apply Qle_shift_div_l; [exact Hm|]. now rewrite Qmult_0_l.
  - apply Qle_shift_div_r; [exact Hm|]. now rewrite Qmult_1_l.
Qed.

Lemma normalized_max (m : Q) : 0 < m -> m / m == 1.
Proof.
  intros Hm. apply Qmult_inv_r. intros E. rewrite E in Hm. discriminate.
Qed.

End Maxima.

(** ** answer_searcher.py: the score map and the best answer *)

Section Scoring.

Import AnswerSearcher.
Local Open Scope Q_scope.

Lemma raw_scores_NoDup (results : list search_result) (options : list string) :
  NoDup (keys (raw_scores results options)).
Proof. rewrite raw_scores_keys. apply zero_scores_NoDup. Qed.

Lemma raw_scores_get (results : list search_result) (options : list string) (o : string) :
  In o options -> exists v, dict_get o (raw_scores results options) = Some v /\ 0 <= v.
Proof.
  intros H. apply zero_scores_keys in H. rewrite <- (raw_scores_keys results) in H.
  apply dict_get_key in H. destruct H as (v & E). exists v. split; [exact E|].
  eapply raw_scores_nonneg. eapply dict_get_In. exact E.
Qed.

Lemma extract_keys (results : list search_result) (options : list string) :
  keys (extract_potential_answers results options) = keys (zero_scores options).
Proof.
  unfold extract_potential_answers. destruct (_ || _); [reflexivity|].
  rewrite normalize_keys. apply raw_scores_keys.
Qed.

Lemma extract_NoDup (results : list search_result) (options : list string) :
  NoDup (keys (extract_potential_answers results options)).
Proof. rewrite extract_keys. apply zero_scores_NoDup. Qed.

(** Every score of the returned map lies in [0,1]. *)
Lemma extract_range (results : list search_result) (options : list string)
      (k : string) (v : Q) :
  dict_get k (extract_potential_answers results options) = Some v -> 0 <= v /\ v <= 1.
Proof.
  unfold extract_potential_answers. destruct (_ || _).
  - intros H. apply dict_get_In, zero_scores_values in H. subst. split; discriminate.
  - rewrite normalize_get.
    destruct (Qlt_bool 0 (max_score (raw_scores results options))) eqn:E.
    + destruct (dict_get k (raw_scores results options)) as [v0|] eqn:G; [|discriminate].
      cbn [option_map]. intros H; inversion H; subst. apply dict_get_In in G.
      apply normalized_range.
      * now apply Qlt_bool_iff.
      * eapply raw_scores_nonneg; exact G.
      * eapply max_score_ge; exact G.
    + intros H. apply dict_get_In in H. apply Qlt_bool_false in E. split.
      * eapply raw_scores_nonneg; exact H.
      * eapply Qle_trans; [eapply max_score_ge; exact H|].
        eapply Qle_trans; [exact E | discriminate].
Qed.

(** C1: when some option receives a non-zero raw score, the normalized map
    gives some option the score 1, and every option a score in [0,1]: the
    greatest normalized score is exactly 1. *)
Theorem normalized_maximum_is_one (search_results : list search_result)
        (answer_options : list string) :
  (exists o v, In o answer_options /\
               dict_get o (raw_scores search_results answer_options) = Some v /\
               ~ v == 0) ->
  let scores := extract_potential_answers search_results answer_options in
  (exists o v, In o answer_options /\ dict_get o scores = Some v /\ v == 1) /\
  (forall o, In o answer_options ->
             exists v, dict_get o scores = Some v /\ 0 <= v /\ v <= 1).
Proof.
  intros (o & v & Ho & Hget & Hv) scores.
  assert (Hres : search_results <> []).
  { intros ->. apply Hv. eapply raw_scores_no_results. eapply dict_get_In. exact Hget. }
  assert (Hopt : answer_options <> []) by (intros ->; contradiction).
  assert (Escores : scores = normalize (raw_scores search_results answer_options)).
  { unfold scores, extract_potential_answers.
    destruct search_results; [congruence|]. destruct answer_options; [congruence|].
    reflexivity. }
  set (raw := raw_scores search_results answer_options) in *.
  assert (Hpos : 0 < max_score raw).
  { apply Qlt_le_trans with v.
    - assert (0 <= v) by (eapply raw_scores_nonneg; eapply dict_get_In; exact Hget).
      apply Qle_lt_or_eq in H. destruct H as [H|H]; [exact H|]. symmetry in H. contradiction.
    - eapply max_score_ge. eapply dict_get_In. exact Hget. }
  split.
  - destruct (max_score_In raw) as (k & Hk).
    { intros E. unfold raw in Hget. fold raw in Hget. rewrite E in Hget. discriminate. }
    exists k, (max_score raw / max_score raw). split; [|split].
    + apply zero_scores_keys. unfold raw in Hk. rewrite <- (raw_scores_keys search_results).
      unfold keys. change k with (fst (k, max_score (raw_scores search_results answer_options))).
      now apply in_map.
    + rewrite Escores, normalize_get.
      rewrite (proj2 (Qlt_bool_iff _ _) Hpos).
      rewrite (In_dict_get k raw (max_score raw)); [reflexivity | apply raw_scores_NoDup | exact Hk].
    + now apply normalized_max.
  - intros o' Ho'. destruct (raw_scores_get search_results answer_options o' Ho') as (v' & G & Hv').
    fold raw in G.
    exists (v' / max_score raw). split.
    + rewrite Escores, normalize_get, (proj2 (Qlt_bool_iff _ _) Hpos), G. reflexivity.
    + apply normalized_range; [exact Hpos | exact Hv' |].
      eapply max_score_ge. eapply dict_get_In. exact G.
Qed.

End Scoring.

Section BestAnswer.

Import AnswerSearcher.
Local Open Scope Q_scope.

Variable search_google : string -> nat -> list search_result.

(** With a question and options, [find_best_answer] returns from inside its
    [try] block: the score map is not empty and nothing raises. *)
Lemma find_best_answer_normal (question : string) (answer_options : list string) :
  question <> ""%string -> answer_options <> [] ->
  exists item items,
    scores_for search_google question answer_options = item :: items /\
    find_best_answer search_google question answer_options = max_item_from item items.
Proof.
  intros Hq Ho. unfold find_best_answer, find_best_answer_try.
  fold (scores_for search_google question answer_options).
  apply truthy_not_empty in Hq. apply is_nil_false in Ho. rewrite Hq, Ho. cbn [negb orb].
  destruct (scores_for search_google question answer_options) as [|item items] eqn:E.
  - exfalso. apply is_nil_false in Ho. destruct answer_options as [|o os]; [congruence|].
    assert (H : In o (keys (scores_for search_google question (o :: os)))).
    { unfold scores_for. rewrite extract_keys. apply zero_scores_keys. now left. }
    rewrite E in H. exact H.
  - exists item, items. split; reflexivity.
Qed.

(** The answer returned carries the greatest score of the map and is the
    first option, in the order given, with that score. *)
Lemma best_answer_first_max (question : string) (answer_options : list string) :
  question <> ""%string -> answer_options <> [] ->
  let scores := scores_for search_google question answer_options in
  let best := fst (find_best_answer search_google question answer_options) in
  let confidence := snd (find_best_answer search_google question answer_options) in
  dict_get best scores = Some confidence /\
  (forall o v, dict_get o scores = Some v -> v <= confidence) /\
  find (scores_equal scores confidence) answer_options = Some best.
Proof.
  intros Hq Ho scores best confidence.
  destruct (find_best_answer_normal question answer_options Hq Ho) as (item & items & Es & Eb).
  fold scores in Es. unfold best, confidence. rewrite Eb. clear best confidence Eb.
  set (b := max_item_from item items).
  assert (Hnd : NoDup (keys scores)) by apply extract_NoDup.
  assert (Hin : In b scores) by (rewrite Es; apply max_item_from_In).
  assert (Hge : forall x, In x scores -> snd x <= snd b).
  { intros x Hx. rewrite Es in Hx. now apply max_item_from_ge. }
  split; [|split].
  - apply In_dict_get; [exact Hnd|]. now destruct b.
  - intros o v G. apply dict_get_In in G. apply (Hge (o, v) G).
  - unfold scores at 1, scores_for. fold scores.
    rewrite <- (zero_scores_find _ answer_options).
    rewrite <- (extract_keys (all_results search_google
                                (AnswerSearcher.search_query question answer_options))).
    fold (scores_for search_google question answer_options). fold scores.
    unfold keys. rewrite find_map_fst.
    rewrite (find_ext_in _ (fun kv => Qle_bool (snd b) (snd kv))).
    + rewrite Es. unfold b. rewrite max_item_from_first. reflexivity.
    + intros [k v] Hx. unfold scores_equal. cbn [fst snd].
      rewrite (In_dict_get k scores v Hnd Hx).
      specialize (Hge (k, v) Hx). cbn [snd] in Hge.
      destruct (Qle_bool (snd b) v) eqn:E.
      * apply Qeq_bool_iff. apply Qle_bool_iff in E. now apply Qle_antisym.
      * apply not_true_iff_false. rewrite Qeq_bool_iff. intros H.
        apply not_true_iff_false in E. apply E. apply Qle_bool_iff. rewrite H. apply Qle_refl.
Qed.

(** The answer returned is one of the options, with a confidence in [0,1]. *)
Lemma best_answer_is_an_option (question : string) (answer_options : list string) :
  question <> ""%string -> answer_options <> [] ->
  let best := fst (find_best_answer search_google question answer_options) in
  let confidence := snd (find_best_answer search_google question answer_options) in
  (In best answer_options /\ 0 <= confidence /\ confidence <= 1) /\
  (In (fst (fallback answer_options)) answer_options /\
   snd (fallback answer_options) == 1 # 10).
Proof.
  intros Hq Ho best confidence. split.
  - destruct (best_answer_first_max question answer_options Hq Ho) as (G & _ & F).
    fold best confidence in G, F. split.
    + apply find_some in F. tauto.
    + eapply extract_range. exact G.
  - destruct answer_options as [|o os]; [congruence|]. split; [now left | reflexivity].
Qed.

(** C5: for a non-empty question and non-empty options, the answer returned
    carries the greatest normalized score, and it is the first option, in
    the order of [answer_options], whose normalized score equals that
    greatest score: of two options with the same score the earlier one is
    selected. *)
Theorem find_best_answer_first_max (question : string) (answer_options : list string) :
  question <> ""%string -> answer_options <> [] ->
  let scores := scores_for search_google question answer_options in
  let best := fst (find_best_answer search_google question answer_options) in
  let confidence := snd (find_best_answer search_google question answer_options) in
  dict_get best scores = Some confidence /\
  (forall o v, dict_get o scores = Some v -> v <= confidence) /\
  find (scores_equal scores confidence) answer_options = Some best.
Proof. exact (best_answer_first_max question answer_options). Qed.

(** C10: for a non-empty question and non-empty options, the answer returned
    is one of the options and its confidence lies in [0,1]; the fall-back
    value, the first option with confidence 0.1, satisfies the same. *)
Theorem find_best_answer_is_an_option (question : string) (answer_options : list string) :
  question <> ""%string -> answer_options <> [] ->
  let best := fst (find_best_answer search_google question answer_options) in
  let confidence := snd (find_best_answer search_google question answer_options) in
  (In best answer_options /\ 0 <= confidence /\ confidence <= 1) /\
  (In (fst (fallback answer_options)) answer_options /\
   snd (fallback answer_options) == 1 # 10).
Proof. exact (best_answer_is_an_option question answer_options). Qed.

End BestAnswer.

Section Degenerate.

Import AnswerSearcher.
Local Open Scope Q_scope.

(** C6: without snippets or without options the map returned is the zero
    map over exactly the given options; and whenever every raw score is
    zero, every option's normalized score is zero. *)
Theorem degenerate_scores_are_zero (search_results : list search_result)
        (answer_options : list string) :
  let scores := extract_potential_answers search_results answer_options in
  (search_results = [] \/ answer_options = [] ->
     (forall o, In o (keys scores) <-> In o answer_options) /\
     (forall o, In o answer_options -> dict_get o scores = Some 0) /\
     (forall o v, In (o, v) scores -> v = 0)) /\
  (all_zero (raw_scores search_results answer_options) ->
     forall o, In o answer_options -> exists v, dict_get o scores = Some v /\ v == 0).
Proof.
  intros scores. split.
  - intros Hdeg.
    assert (E : scores = zero_scores answer_options).
    { unfold scores, extract_potential_answers.
      destruct Hdeg as [-> | ->]; [reflexivity|]. now rewrite orb_true_r. }
    rewrite E. split; [|split].
    + apply zero_scores_keys.
    + apply zero_scores_get.
    + apply zero_scores_values.
  - intros Hzero o Ho. unfold scores, extract_potential_answers.
    destruct (_ || _).
    + exists 0. split; [now apply zero_scores_get | reflexivity].
    + destruct (raw_scores_get search_results answer_options o Ho) as (v & G & _).
      set (raw := raw_scores search_results answer_options) in *.
      rewrite normalize_get.
      destruct (Qlt_bool 0 (max_score raw)) eqn:E.
      * exfalso. apply Qlt_bool_iff in E.
        destruct (max_score_In raw) as (k & Hk).
        { intros R. rewrite R in G. discriminate. }
        apply Hzero in Hk. rewrite Hk in E. discriminate.
      * exists v. split; [exact G|]. eapply Hzero. eapply dict_get_In. exact G.
Qed.

End Degenerate.

(** ** Instances on concrete inputs *)

Section Instances.

Import AnswerSearcher Scenario.
Local Open Scope Q_scope.

(** The end-to-end scenario: [Paris] gets the greatest raw score and the
    normalized score 1, and is selected. *)
Example france_scenario :
  raw_scores france_results france_options
    = [("London", 5 # 2); ("Berlin", 0 # 2); ("Paris", 15 # 2); ("Madrid", 0 # 2)] /\
  find_best_answer france_web "What is the capital of France?" france_options
    = ("Paris"%string, 30 # 30).
Proof. split; vm_compute; reflexivity. Qed.

Lemma normalized_maximum_is_one_witness :
  exists o v, In o france_options /\
              dict_get o (extract_potential_answers france_results france_options) = Some v /\
              v == 1.
Proof.
  apply (normalized_maximum_is_one france_results france_options).
  exists "Paris"%string, (15 # 2). split; [|split].
  - simpl. tauto.
  - vm_compute. reflexivity.
  - intros H. discriminate H.
Defined.

Lemma find_best_answer_first_max_witness :
  find (scores_equal (scores_for france_web "What is the capital of France?" france_options)
          (snd (find_best_answer france_web "What is the capital of France?" france_options)))
       france_options
  = Some (fst (find_best_answer france_web "What is the capital of France?" france_options)).
Proof.
  apply (find_best_answer_first_max france_web "What is the capital of France?"
           france_options); discriminate.
Defined.

Lemma find_best_answer_is_an_option_witness :
  In (fst (find_best_answer france_web "What is the capital of France?" france_options))
     france_options.
Proof.
  apply (find_best_answer_is_an_option france_web "What is the capital of France?"
           france_options); discriminate.
Defined.

Lemma degenerate_scores_are_zero_witness :
  dict_get "Paris" (extract_potential_answers [] france_options) = Some 0.
Proof.
  apply (degenerate_scores_are_zero [] france_options); [now left|].
  simpl. tauto.
Defined.

End Instances.

(** ** kahoot_agent.py *)

Section Cycles.

Import KahootAgent.
Local Open Scope Q_scope.

Variable C : collaborators.
Variable self : agent.

(** What a cycle does once a question and options are recognized. *)
Lemma cycle_recognized (q : string) (opts : list string) :
  recognizes C q opts -> Py.truthy q = true -> opts <> [] ->
  cycle C self =
    if String.eqb q (last_question self) then (true, self, capture_calls C opts)
    else
      let self' := incr_question_count (set_last_question q self) in
      let found := find_best_answer C q opts in
      if negb (Py.truthy (fst found))
      then (false, self', capture_calls C opts ++ [FindBestAnswer q opts])
      else if should_click (auto_click self) (snd found) (min_confidence self)
                           (positions_of C opts)
      then (true, self',
            capture_calls C opts ++
            [FindBestAnswer q opts;
             ClickBestAnswer (fst found) opts (positions_of C opts)
                             (0, monitor_height C * 2 / 5)%Z])
      else (true, self', capture_calls C opts ++ [FindBestAnswer q opts]).
Proof.
  intros (qi & ai & Hq & Ha & Eq & Ea) Hqt Ho.
  apply is_nil_false in Ho.
  unfold cycle, process_question, try_except, capture_and_analyze, bind, tell, lift, ret.
  unfold capture_calls, positions_of.
  rewrite Hq, Ha, Eq. cbn [truthy_opt]. rewrite Hqt. cbn [negb]. rewrite Ea, Ho.
  destruct (Py.is_nil (find_answer_buttons C (Some ai) opts));
    cbn [truthy_opt text_of app]; rewrite Hqt, Ho; cbn [negb orb];
    unfold get, modify, search_for_answer, bind, tell, ret;
    (destruct (String.eqb q (last_question self)); [reflexivity|]);
    destruct (find_best_answer C q opts) as [best conf]; cbn [fst snd];
    (destruct (Py.truthy best); cbn [negb]; [|reflexivity]);
    destruct (should_click _ _ _ _); reflexivity.
Qed.

(** A cycle that reports success has recognized a non-empty question and a
    non-empty list of options. *)
Lemma cycle_success_recognized :
  result (cycle C self) = true ->
  exists q opts, recognizes C q opts /\ Py.truthy q = true /\ opts <> [].
Proof.
  unfold cycle, process_question, try_except, capture_and_analyze, bind, tell, lift, ret,
    recognizes.
  destruct (capture_question_area C) as [qi|] eqn:Hq; [|cbn; intros H; discriminate H].
  destruct (capture_answers_area C) as [ai|] eqn:Ha; [|cbn; intros H; discriminate H].
  destruct (extract_question C (Some qi)) as [[q|]|] eqn:Eq; try (cbn; intros H; discriminate H).
  cbn [truthy_opt].
  destruct (Py.truthy q) eqn:Hqt; [|cbn; intros H; discriminate H]. cbn [negb].
  destruct (extract_answers C (Some ai)) as [opts|] eqn:Ea; [|cbn; intros H; discriminate H].
  destruct opts as [|o opts]; [cbn; rewrite Hqt; cbn; intros H; discriminate H|].
  intros _. exists q, (o :: opts). split; [|split; [exact Hqt | discriminate]].
  exists qi, ai. auto.
Qed.

(** The recognizer of the repository yields non-empty text only. *)
Lemma real_recognizes (w : world) (q : string) (opts : list string) :
  recognizes (real w) q opts ->
  Py.truthy q = true /\ forall o, In o opts -> Py.truthy o = true.
Proof.
  intros (qi & ai & _ & _ & Eq & Ea).
  unfold real in Eq, Ea. cbn [extract_question extract_answers] in Eq, Ea. split.
  - eapply extract_question_truthy. exact Eq.
  - intros o. eapply extract_answers_truthy. exact Ea.
Qed.

(** So the searcher of the repository recommends a non-empty answer. *)
Lemma real_best_answer_truthy (w : world) (q : string) (opts : list string) :
  recognizes (real w) q opts -> opts <> [] ->
  Py.truthy (fst (find_best_answer (real w) q opts)) = true.
Proof.
  intros Hrec Ho. destruct (real_recognizes w q opts Hrec) as (Hq & Hopts).
  apply Hopts. unfold real. cbn [find_best_answer].
  apply (best_answer_is_an_option (web w) q opts); [|exact Ho].
  now apply truthy_not_empty.
Qed.




Lemma should_click_iff (auto : bool) (confidence threshold : Q) (positions : list position) :
  should_click auto confidence threshold positions = true <->
  auto = true /\ threshold <= confidence /\ positions <> [].
Proof.
  unfold should_click. rewrite !andb_true_iff, negb_true_iff, Qle_bool_iff, is_nil_false.
  tauto.
Qed.

Lemma capture_calls_no_click (opts : list string) :
  existsb is_click (capture_calls C opts) = false /\
  existsb is_search (capture_calls C opts) = false.
Proof.
  unfold capture_calls. destruct (Py.is_nil _); split; reflexivity.
Qed.

(** In a cycle on a new question, the click action is invoked exactly when
    an answer was found and the condition of the gate holds. *)
Lemma clicked_new_question (q : string) (opts : list string) :
  recognizes C q opts -> Py.truthy q = true -> opts <> [] -> q <> last_question self ->
  clicked (cycle C self) =
    Py.truthy (fst (find_best_answer C q opts)) &&
    should_click (auto_click self) (snd (find_best_answer C q opts)) (min_confidence self)
                 (positions_of C opts).
Proof.
  intros Hrec Hq Ho Hnew. rewrite (cycle_recognized q opts Hrec Hq Ho).
  apply String.eqb_neq in Hnew. rewrite Hnew. cbv zeta.
  destruct (capture_calls_no_click opts) as (Hc & _).
  destruct (Py.truthy (fst (find_best_answer C q opts))); cbn [negb andb].
  - destruct (should_click _ _ _ _); unfold clicked, calls; cbn [snd];
      rewrite existsb_app, Hc; reflexivity.
  - unfold clicked, calls; cbn [snd]. rewrite existsb_app, Hc. reflexivity.
Qed.

End Cycles.

Section Orchestrator.

Import KahootAgent Scenario.
Local Open Scope Q_scope.

(** C3: in a cycle of the agent on a new question with non-empty options,
    the click action is invoked if and only if auto-click is enabled, the
    confidence computed is at least [min_confidence] (equality included)
    and the list of button positions is not empty. Whatever the
    collaborators, the action is invoked only if these three conditions
    hold, an empty list of positions ruling it out, and it is invoked under
    them as soon as the searcher returned an answer. With auto-click
    enabled, [min_confidence] 0.5 and a computed confidence of 0.4 the
    action is not invoked; at 0.5, with an answer and a position, it is. *)
Theorem action_gating :
  (forall (w : world) (self : agent) (q : string) (opts : list string),
      recognizes (real w) q opts -> opts <> [] -> q <> last_question self ->
      (clicked (cycle (real w) self) = true <->
       auto_click self = true /\
       min_confidence self <= snd (find_best_answer (real w) q opts) /\
       positions_of (real w) opts <> [])) /\
  (forall (C : collaborators) (self : agent) (q : string) (opts : list string),
      recognizes C q opts -> Py.truthy q = true -> opts <> [] ->
      q <> last_question self ->
      (clicked (cycle C self) = true ->
       auto_click self = true /\
       min_confidence self <= snd (find_best_answer C q opts) /\
       positions_of C opts <> []) /\
      (Py.truthy (fst (find_best_answer C q opts)) = true ->
       (clicked (cycle C self) = true <->
        auto_click self = true /\
        min_confidence self <= snd (find_best_answer C q opts) /\
        positions_of C opts <> []))) /\
  (forall (C : collaborators) (self : agent) (q : string) (opts : list string),
      recognizes C q opts -> Py.truthy q = true -> opts <> [] ->
      q <> last_question self ->
      auto_click self = true -> min_confidence self == 1 # 2 ->
      (snd (find_best_answer C q opts) == 4 # 10 -> clicked (cycle C self) = false) /\
      (snd (find_best_answer C q opts) == 1 # 2 ->
       Py.truthy (fst (find_best_answer C q opts)) = true ->
       positions_of C opts <> [] ->
       clicked (cycle C self) = true)).
Proof.
  split; [|split].
  - intros w self q opts Hrec Ho Hnew.
    destruct (real_recognizes w q opts Hrec) as (Hq & _).
    rewrite (clicked_new_question (real w) self q opts Hrec Hq Ho Hnew).
    rewrite (real_best_answer_truthy w q opts Hrec Ho). cbn [andb].
    apply should_click_iff.
  - intros C self q opts Hrec Hq Ho Hnew.
    rewrite (clicked_new_question C self q opts Hrec Hq Ho Hnew). split.
    + intros H. apply andb_true_iff in H. destruct H as (_ & H).
      now apply should_click_iff.
    + intros Hbest. rewrite Hbest. cbn [andb]. apply should_click_iff.
  - intros C self q opts Hrec Hq Ho Hnew Hauto Hmin. split.
    + intros Hconf. rewrite (clicked_new_question C self q opts Hrec Hq Ho Hnew).
      apply andb_false_iff. right. apply not_true_iff_false.
      rewrite should_click_iff. intros (_ & Hle & _).
      rewrite Hmin, Hconf in Hle. apply (Qle_not_lt _ _ Hle). reflexivity.
    + intros Hconf Hbest Hpos.
      rewrite (clicked_new_question C self q opts Hrec Hq Ho Hnew), Hbest. cbn [andb].
      apply should_click_iff. repeat split; [exact Hauto | | exact Hpos].
      rewrite Hmin, Hconf. apply Qle_refl.
Qed.

(** C4, the claim as worded fails: the question recognized equals
    [last_question], no option is recognized, and the cycle reports
    failure. *)
Lemma dedup_without_options_fails :
  let self := set_last_question france_question (init false) in
  OCRExtractor.extract_question (recognize blind_world) (question_img blind_world)
    = Ok (Some (last_question self)) /\
  result (cycle (real blind_world) self) = false.
Proof. split; vm_compute; reflexivity. Qed.

(** A cycle on the question already in [last_question] is a successful
    no-op. *)
Lemma dedup_cycle (w : world) (self : agent) (q : string) (opts : list string) :
  recognizes (real w) q opts -> opts <> [] -> q = last_question self ->
  cycle (real w) self = (true, self, capture_calls (real w) opts).
Proof.
  intros Hrec Ho Hsame.
  destruct (real_recognizes w q opts Hrec) as (Hq & _).
  rewrite (cycle_recognized (real w) self q opts Hrec Hq Ho).
  now rewrite Hsame, String.eqb_refl.
Qed.

(** After a cycle that recognized a question, [last_question] is that
    question. *)
Lemma cycle_last_question (w : world) (self : agent) (q : string) (opts : list string) :
  recognizes (real w) q opts -> opts <> [] ->
  last_question (state (cycle (real w) self)) = q.
Proof.
  intros Hrec Ho.
  destruct (real_recognizes w q opts Hrec) as (Hq & _).
  rewrite (cycle_recognized (real w) self q opts Hrec Hq Ho).
  destruct (String.eqb_spec q (last_question self)) as [->|Hne]; [reflexivity|].
  cbv zeta. destruct (negb _); [reflexivity|].
  destruct (should_click _ _ _ _); reflexivity.
Qed.

(** C4, as amended: when the question recognized equals [last_question] and
    the list of options recognized is not empty, the cycle reports success,
    invokes neither the searcher (evidence gathering and scoring) nor the
    click action, and leaves the state of the agent, [last_question] and
    [question_count] included, unchanged. In particular the cycle that
    follows a cycle on the same question and options is such a no-op. *)
Theorem dedup_is_noop (w : world) (self : agent) (q : string) (opts : list string) :
  recognizes (real w) q opts -> opts <> [] ->
  (q = last_question self ->
   let r := cycle (real w) self in
   result r = true /\ searched r = false /\ clicked r = false /\
   state r = self /\
   last_question (state r) = last_question self /\
   question_count (state r) = question_count self) /\
  (let first := cycle (real w) self in
   let second := cycle (real w) (state first) in
   result second = true /\ searched second = false /\ clicked second = false /\
   state second = state first).
Proof.
  intros Hrec Ho.
  destruct (capture_calls_no_click (real w) opts) as (Hc & Hs).
  split.
  - intros Hsame r. unfold r. rewrite (dedup_cycle w self q opts Hrec Ho Hsame).
    unfold result, searched, clicked, state, calls. cbn [fst snd].
    rewrite Hc, Hs. repeat split.
  - intros first second. unfold second.
    rewrite (dedup_cycle w (state first) q opts Hrec Ho).
    + unfold result, searched, clicked, state, calls. cbn [fst snd].
      rewrite Hc, Hs. repeat split.
    + symmetry. now apply cycle_last_question with (opts := opts).
Qed.

(** With the collaborators of the repository, a cycle that recognized a
    question and options reports success, whatever the scores and the
    positions. *)
Lemma real_cycle_succeeds (w : world) (self : agent) (q : string) (opts : list string) :
  recognizes (real w) q opts -> opts <> [] -> result (cycle (real w) self) = true.
Proof.
  intros Hrec Ho. destruct (real_recognizes w q opts Hrec) as (Hq & _).
  rewrite (cycle_recognized (real w) self q opts Hrec Hq Ho).
  destruct (String.eqb q (last_question self)); [reflexivity|].
  cbv zeta. rewrite (real_best_answer_truthy w q opts Hrec Ho). cbn [negb].
  destruct (should_click _ _ _ _); reflexivity.
Qed.

(** C9: a cycle reports success only if it recognized a non-empty question
    and a non-empty list of options; given those and a recommended answer,
    an empty list of button positions does not make it fail; and with the
    searcher of the repository no score map, the all-zero one included,
    makes it fail. *)
Theorem success_needs_question_and_options :
  (forall (C : collaborators) (self : agent),
      result (cycle C self) = true ->
      exists q opts, recognizes C q opts /\ q <> ""%string /\ opts <> []) /\
  (forall (C : collaborators) (self : agent) (q : string) (opts : list string),
      recognizes C q opts -> q <> ""%string -> opts <> [] ->
      Py.truthy (fst (find_best_answer C q opts)) = true ->
      positions_of C opts = [] ->
      result (cycle C self) = true) /\
  (forall (w : world) (self : agent) (q : string) (opts : list string),
      recognizes (real w) q opts -> opts <> [] ->
      AnswerSearcher.all_zero (AnswerSearcher.scores_for (web w) q opts) ->
      result (cycle (real w) self) = true).
Proof.
  split; [|split].
  - intros C self H. destruct (cycle_success_recognized C self H) as (q & opts & Hr & Hq & Ho).
    exists q, opts. split; [exact Hr|]. split; [now apply truthy_not_empty | exact Ho].
  - intros C self q opts Hrec Hq Ho Hbest _.
    apply truthy_not_empty in Hq.
    rewrite (cycle_recognized C self q opts Hrec Hq Ho).
    destruct (String.eqb q (last_question self)); [reflexivity|].
    cbv zeta. rewrite Hbest. cbn [negb].
    destruct (should_click _ _ _ _); reflexivity.
  - intros w self q opts Hrec Ho _. now apply (real_cycle_succeeds w self q opts).
Qed.

(** C7, as amended: [extract_question] and [extract_answers] return the empty
    result (None, the empty list) on a null image; an exception of the
    recognizer is not handled by them and reaches their caller, and
    [process_question] turns it into a failed cycle. *)
Theorem extract_null_or_raise (recognizer : image -> exc string) :
  OCRExtractor.extract_question recognizer None = Ok None /\
  OCRExtractor.extract_answers recognizer None = Ok [] /\
  (forall img, recognizer img = Raised ->
     OCRExtractor.extract_question recognizer (Some img) = Raised /\
     OCRExtractor.extract_answers recognizer (Some img) = Raised) /\
  (forall (w : world) (self : agent) (qi ai : image),
     recognize w = recognizer ->
     question_img w = Some qi -> answers_img w = Some ai ->
     recognizer qi = Raised \/ recognizer ai = Raised ->
     result (cycle (real w) self) = false).
Proof.
  split; [reflexivity|]. split; [reflexivity|]. split.
  - intros img H. unfold OCRExtractor.extract_question, OCRExtractor.extract_answers.
    rewrite H. split; reflexivity.
  - intros w self qi ai <- Hq Ha Hraise.
    unfold cycle, process_question, try_except, capture_and_analyze, bind, tell, lift, ret.
    unfold real. cbn [capture_question_area capture_answers_area extract_question
                      extract_answers].
    rewrite Hq, Ha. unfold OCRExtractor.extract_question, OCRExtractor.extract_answers.
    destruct (recognize w qi) as [text|] eqn:Eq; [|reflexivity].
    destruct Hraise as [H|H]; [discriminate|]. rewrite H.
    destruct (Py.truthy (OCRExtractor.clean_question_text text)) eqn:Et;
      cbn [truthy_opt]; rewrite ?Et; reflexivity.
Qed.

(** *** Instances *)

Lemma action_gating_witness :
  clicked (cycle (real france_world) (clicking_agent 1)) = true /\
  clicked (cycle (stub ("Paris"%string, 1) []) (clicking_agent (1 # 2))) = false /\
  clicked (cycle (stub ("Paris"%string, 1) [(200, 150)%Z]) (clicking_agent (1 # 2)))
    = true /\
  clicked (cycle (stub ("Paris"%string, 4 # 10) [(200, 150)%Z]) (clicking_agent (1 # 2)))
    = false /\
  clicked (cycle (stub ("Paris"%string, 1 # 2) [(200, 150)%Z]) (clicking_agent (1 # 2)))
    = true.
Proof.
  destruct action_gating as (Hreal & Hgate & Hany).
  assert (Hrec : forall found positions,
             recognizes (stub found positions) france_question france_options)
    by (intros found positions; exists question_image, answers_image; repeat split).
  split; [|split; [|split; [|split]]].
  - apply (Hreal france_world (clicking_agent 1) france_question france_options).
    + exists question_image, answers_image. repeat split.
    + discriminate.
    + discriminate.
    + split; [reflexivity|]. split; [vm_compute; discriminate | discriminate].
  - destruct (clicked (cycle (stub ("Paris"%string, 1) []) (clicking_agent (1 # 2))))
      eqn:E; [|reflexivity].
    exfalso.
    destruct (Hgate (stub ("Paris"%string, 1) []) (clicking_agent (1 # 2))
                    france_question france_options (Hrec _ _) eq_refl)
      as (Honly & _); [discriminate | discriminate |].
    destruct (Honly E) as (_ & _ & Hpos). apply Hpos. reflexivity.
  - destruct (Hgate (stub ("Paris"%string, 1) [(200, 150)%Z]) (clicking_agent (1 # 2))
                    france_question france_options (Hrec _ _) eq_refl)
      as (_ & Hiff); [discriminate | discriminate |].
    apply (Hiff eq_refl). split; [reflexivity|]. split; discriminate.
  - apply (Hany (stub ("Paris"%string, 4 # 10) [(200, 150)%Z]) (clicking_agent (1 # 2))
                france_question france_options);
      try reflexivity; try discriminate.
    apply Hrec.
  - apply (Hany (stub ("Paris"%string, 1 # 2) [(200, 150)%Z]) (clicking_agent (1 # 2))
                france_question france_options);
      try reflexivity; try discriminate.
    apply Hrec.
Defined.

Lemma dedup_is_noop_witness :
  let self := set_last_question france_question (init true) in
  result (cycle (real france_world) self) = true /\
  searched (cycle (real france_world) self) = false.
Proof.
  intros self.
  destruct (dedup_is_noop france_world self france_question france_options)
    as (Hsame & _).
  - exists question_image, answers_image. repeat split.
  - discriminate.
  - destruct (Hsame eq_refl) as (H1 & H2 & _). split; [exact H1 | exact H2].
Defined.

Lemma success_needs_question_and_options_witness :
  (exists q opts, recognizes (real france_world) q opts /\ q <> ""%string /\ opts <> []) /\
  result (cycle (stub ("Paris"%string, 1) []) (clicking_agent (3 # 10))) = true /\
  result (cycle (real silent_world) (init true)) = true.
Proof.
  destruct success_needs_question_and_options as (Honly & Hpos & Hzero).
  split; [|split].
  - apply (Honly (real france_world) (init true)). vm_compute. reflexivity.
  - apply (Hpos (stub ("Paris"%string, 1) []) (clicking_agent (3 # 10))
                france_question france_options);
      try reflexivity; try discriminate.
    exists question_image, answers_image. repeat split.
  - apply (Hzero silent_world (init true) france_question france_options).
    + exists question_image, answers_image. repeat split.
    + discriminate.
    + intros k v Hin. vm_compute in Hin.
      repeat (destruct Hin as [Hin|Hin]; [inversion Hin; reflexivity|]). contradiction.
Defined.

Lemma extract_null_or_raise_witness :
  OCRExtractor.extract_question (fun _ => Raised) (Some question_image) = Raised /\
  result (cycle (real broken_world) (init true)) = false.
Proof.
  destruct (extract_null_or_raise (fun _ => Raised)) as (_ & _ & Hraise & Hcycle).
  split.
  - apply (Hraise question_image). reflexivity.
  - apply (Hcycle broken_world (init true) question_image answers_image);
      try reflexivity. now left.
Defined.

End Orchestrator.

(* ================================================================== *)
(** * Further properties of the modules *)
(* ================================================================== *)

(** ** ocr_extractor.py *)

Section QuestionText.

Import OCRExtractor.

Lemma ends_with_char_append (p : ascii -> bool) (s : string) (c : ascii) :
  Py.ends_with_char p (s ++ String c "") = p c.
Proof.
  induction s as [|a s IH]; [reflexivity|].
  cbn [append]. destruct s as [|b s]; [reflexivity|].
  cbn [append] in IH |- *. exact IH.
Qed.

Lemma remove_chars_clean (p : ascii -> bool) (s : string) :
  Forall (fun c => p c = false) (list_ascii_of_string (Py.remove_chars p s)).
Proof.
  induction s as [|a s IH]; simpl; [constructor|].
  destruct (p a) eqn:E; [exact IH|]. simpl. constructor; assumption.
Qed.

Lemma list_ascii_of_append (s t : string) :
  list_ascii_of_string (s ++ t) = (list_ascii_of_string s ++ list_ascii_of_string t)%list.
Proof. induction s as [|a s IH]; simpl; [reflexivity | now rewrite IH]. Qed.

(** X1: the question text [clean_question_text] returns is empty or ends
    with one of the marks [?], [.] and [!]. *)
Theorem clean_question_text_terminated (raw_text : string) :
  clean_question_text raw_text = "" \/
  Py.ends_with_char is_terminal (clean_question_text raw_text) = true.
Proof.
  unfold clean_question_text.
  destruct (Py.truthy raw_text); cbn [negb]; [|now left].
  set (cleaned := Py.remove_chars is_artifact (Py.collapse_ws (Py.strip raw_text))).
  destruct (Py.truthy cleaned) eqn:Et; cbn [andb].
  - destruct (Py.ends_with_char is_terminal cleaned) eqn:Ee; cbn [negb].
    + now right.
    + right. apply ends_with_char_append.
  - left. destruct cleaned; [reflexivity | discriminate].
Qed.

(** X2: the question text [clean_question_text] returns contains none of
    the characters [| @ # $ % ^ & *]. *)
Theorem clean_question_text_no_artifact (raw_text : string) :
  Forall (fun c => is_artifact c = false)
         (list_ascii_of_string (clean_question_text raw_text)).
Proof.
  unfold clean_question_text.
  destruct (Py.truthy raw_text); cbn [negb]; [|constructor].
  destruct (_ && _).
  - rewrite list_ascii_of_append. apply Forall_app. split.
    + apply remove_chars_clean.
    + repeat constructor.
  - apply remove_chars_clean.
Qed.

End QuestionText.

Section EasyOCR.

Import OCRExtractor.
Local Open Scope Q_scope.

Variable readtext : image -> exc (list region).

Lemma fold_keep_region (results : list region) (acc : list string) :
  fold_left keep_region results acc
  = (acc ++ map (fun r => snd (fst r)) (filter confident results))%list.
Proof.
  revert acc; induction results as [|[[bbox text] confidence] results IH]; intros acc.
  - simpl. now rewrite app_nil_r.
  - cbn [fold_left filter]. rewrite IH. unfold keep_region at 1, confident at 2.
    cbn [snd fst].
    destruct (negb (Qle_bool confidence (3 # 10))); cbn [map fst snd].
    + now rewrite <- app_assoc.
    + reflexivity.
Qed.

(** X3: [extract_text_easyocr] joins, in order and with single spaces, the
    texts of the regions whose confidence is above 0.3; when no region is
    above 0.3 (0.3 itself is not) the text is empty, [extract_question]
    returns None and [extract_answers] the empty list. *)
Theorem extract_text_easyocr_threshold (img : image) (results : list region) :
  readtext img = Ok results ->
  extract_text_easyocr readtext img
    = Ok (Py.join " " (map (fun r => snd (fst r)) (filter confident results))) /\
  ((forall r, In r results -> snd r <= 3 # 10) ->
   extract_text_easyocr readtext img = Ok ""%string /\
   extract_question (extract_text_easyocr readtext) (Some img) = Ok None /\
   extract_answers (extract_text_easyocr readtext) (Some img) = Ok []).
Proof.
  intros Hread.
  assert (E : extract_text_easyocr readtext img
              = Ok (Py.join " " (map (fun r => snd (fst r)) (filter confident results)))).
  { unfold extract_text_easyocr. rewrite Hread, fold_keep_region. reflexivity. }
  split; [exact E|]. intros Hlow.
  assert (F : filter confident results = []).
  { clear E Hread. induction results as [|r results IH]; [reflexivity|].
    cbn [filter]. unfold confident at 1.
    rewrite (proj2 (Qle_bool_iff _ _) (Hlow r (or_introl eq_refl))). cbn [negb].
    apply IH. intros r' Hr'. apply Hlow. now right. }
  rewrite F in E. cbn in E.
  unfold extract_question, extract_answers. rewrite E. repeat split.
Qed.

End EasyOCR.

Lemma extract_text_easyocr_threshold_witness :
  OCRExtractor.extract_question
    (OCRExtractor.extract_text_easyocr Scenario.faint_reader)
    (Some Scenario.question_image) = Ok None.
Proof.
  apply (extract_text_easyocr_threshold Scenario.faint_reader Scenario.question_image
           [([(0, 0); (10, 0); (10, 5); (0, 5)]%Z, "Paris"%string, (3 # 10)%Q)]).
  - reflexivity.
  - intros r [<-|[]]. cbn. apply Qle_refl.
Defined.

Section Options.

Import OCRExtractor.

Lemma split_nil_all_space (s : string) : Py.split s = [] -> Py.all_space s = true.
Proof.
  induction s as [|c r IH]; [reflexivity|].
  cbn [Py.split]. unfold Py.all_space. cbn [list_ascii_of_string forallb].
  destruct (Py.is_space c); [exact IH|].
  destruct r as [|d r']; [discriminate|].
  destruct (Py.is_space d); [discriminate|].
  destruct (Py.split (String d r')); discriminate.
Qed.

Lemma split_on_all_space (sep : ascii) (s l : string) :
  Py.all_space s = true -> In l (Py.split_on sep s) -> Py.all_space l = true.
Proof.
  revert l; induction s as [|c r IH]; intros l Hs Hin.
  - destruct Hin as [<-|[]]. reflexivity.
  - unfold Py.all_space in Hs. cbn [list_ascii_of_string forallb] in Hs.
    apply andb_true_iff in Hs. destruct Hs as (Hc & Hr).
    cbn [Py.split_on] in Hin. destruct (Ascii.eqb c sep).
    + destruct Hin as [<-|Hin]; [reflexivity | now apply IH].
    + destruct (Py.split_on sep r) as [|h t] eqn:E.
      * destruct Hin as [<-|[]]. unfold Py.all_space. cbn. now rewrite Hc.
      * destruct Hin as [<-|Hin].
        -- unfold Py.all_space. cbn [list_ascii_of_string forallb]. rewrite Hc.
           apply (IH h Hr). now left.
        -- apply (IH l Hr). now right.
Qed.

Lemma strip_all_space (s : string) : Py.all_space s = true -> Py.strip s = "".
Proof.
  unfold Py.strip. intros H.
  assert (E : Py.lstrip s = "").
  { induction s as [|c r IH]; [reflexivity|].
    unfold Py.all_space in H. cbn [list_ascii_of_string forallb] in H.
    apply andb_true_iff in H. destruct H as (Hc & Hr).
    cbn [Py.lstrip]. rewrite Hc. now apply IH. }
  now rewrite E.
Qed.

(** X4: every option [parse_answer_options] returns is a non-empty string,
    on the line path as on the fall-back path. *)
Theorem parse_answer_options_nonempty (raw_text o : string) :
  In o (parse_answer_options raw_text) -> o <> "".
Proof.
  intros H. apply truthy_not_empty. now apply (parse_answer_options_truthy raw_text).
Qed.

(** X5: a text without any token, empty or made of white space only, yields
    no option. *)
Theorem parse_answer_options_blank (raw_text : string) :
  Py.split raw_text = [] -> parse_answer_options raw_text = [].
Proof.
  intros Hsplit. rewrite parse_answer_options_eq, Hsplit.
  rewrite andb_false_r.
  assert (F : fragments raw_text = []); [|now rewrite F].
  unfold fragments.
  assert (L : filter (fun l => (2 <? String.length l)%nat)
                     (map Py.strip (Py.split_on LF raw_text)) = []); [|now rewrite L].
  apply split_nil_all_space in Hsplit.
  pose proof (split_on_all_space LF raw_text) as Hlines.
  induction (Py.split_on LF raw_text) as [|l ls IH]; [reflexivity|].
  cbn [map filter]. rewrite (strip_all_space l).
  - cbn. apply IH. intros l' Hs Hin. apply Hlines; [exact Hs | now right].
  - apply Hlines; [exact Hsplit | now left].
Qed.

End Options.

Lemma parse_answer_options_nonempty_witness :
  In "Paris"%string (OCRExtractor.parse_answer_options "A) Paris") /\
  "Paris"%string <> ""%string.
Proof.
  assert (H : In "Paris"%string (OCRExtractor.parse_answer_options "A) Paris"))
    by (simpl; now left).
  split; [exact H|].
  exact (parse_answer_options_nonempty "A) Paris" "Paris" H).
Defined.

Lemma parse_answer_options_blank_witness :
  OCRExtractor.parse_answer_options "   " = [].
Proof. apply parse_answer_options_blank. reflexivity. Defined.

(** ** auto_clicker.py *)

Section Clicking.

Import AutoClicker.
Local Open Scope Z_scope.

Variable pointer_click : Z -> Z -> exc unit.

(** X6: [click_answer] returns True exactly when the index designates a
    button position and the pointer click at that position, moved by the
    offset of the answers area, does not raise; an index past the end of
    the list, or an empty list, gives False. *)
Theorem click_answer_true_iff (answer_index : nat) (button_positions : list position)
        (answers_area_offset : position) :
  click_answer pointer_click answer_index button_positions answers_area_offset = true <->
  exists x y, nth_error button_positions answer_index = Some (x, y) /\
              pointer_click (x + fst answers_area_offset) (y + snd answers_area_offset)
              = Ok tt.
Proof.
  unfold click_answer.
  destruct (Py.is_nil button_positions
            || (List.length button_positions <=? answer_index)%nat) eqn:G.
  - split; [discriminate|]. intros (x & y & Hn & _). exfalso.
    apply orb_true_iff in G. destruct G as [G|G].
    + apply is_nil_true in G. subst. destruct answer_index; discriminate.
    + apply Nat.leb_le in G. apply nth_error_None in G. congruence.
  - destruct (nth_error button_positions answer_index) as [[x y]|] eqn:Hn.
    + destruct (pointer_click (x + fst answers_area_offset)
                              (y + snd answers_area_offset)) as [[]|] eqn:Hp.
      * split; [|reflexivity]. intros _. exists x, y. split; [reflexivity | exact Hp].
      * split; [discriminate|]. intros (x' & y' & E & Hp'). inversion E; subst. congruence.
    + split; [discriminate|]. intros (x & y & E & _). discriminate.
Qed.

Lemma click_best_answer_index (best_answer : string) (answer_options : list string)
      (button_positions : list position) (answers_area_offset : position) :
  click_best_answer pointer_click best_answer answer_options button_positions
                    answers_area_offset =
  if negb (Py.truthy best_answer) || Py.is_nil answer_options then false
  else match answer_index best_answer answer_options with
       | Some i => click_answer pointer_click i button_positions answers_area_offset
       | None => false
       end.
Proof. reflexivity. Qed.

End Clicking.

Section Matching.

Import AutoClicker.

Lemma prefix_refl (s : string) : String.prefix s s = true.
Proof.
  induction s as [|c s IH]; [reflexivity|]. simpl.
  destruct (ascii_dec c c); [exact IH | congruence].
Qed.

Lemma contains_refl (s : string) : Py.contains s s = true.
Proof.
  destruct s as [|c r]; [reflexivity|].
  change (Py.contains (String c r) (String c r))
    with (String.prefix (String c r) (String c r) || Py.contains r (String c r)).
  now rewrite prefix_refl.
Qed.

Lemma find_containing_some (bl : string) (opts : list string) (k i : nat) :
  find_containing bl k opts = Some i ->
  exists o, (k <= i)%nat /\ nth_error opts (i - k) = Some o /\ holds bl o = true.
Proof.
  revert k; induction opts as [|o opts IH]; intros k H; [discriminate|].
  cbn [find_containing] in H. fold (holds bl o) in H.
  destruct (holds bl o) eqn:E.
  - inversion H; subst. exists o. rewrite Nat.sub_diag. repeat split; auto.
  - apply IH in H. destruct H as (o' & Hk & Hn & Ho').
    exists o'. split; [lia|]. split; [|exact Ho'].
    replace (i - k)%nat with (S (i - S k)) by lia. exact Hn.
Qed.

Lemma find_containing_first (bl : string) (opts : list string) (k j : nat) (o : string) :
  nth_error opts j = Some o -> holds bl o = true ->
  exists i, find_containing bl k opts = Some i /\ (i <= k + j)%nat.
Proof.
  revert k j; induction opts as [|o' opts IH]; intros k j Hn Ho.
  - destruct j; discriminate.
  - cbn [find_containing]. fold (holds bl o').
    destruct (holds bl o') eqn:E.
    + exists k. split; [reflexivity | lia].
    + destruct j as [|j]; [inversion Hn; subst; congruence|].
      destruct (IH (S k) j Hn Ho) as (i & Hi & Hle). exists i. split; [exact Hi | lia].
Qed.

Lemma find_containing_none (bl : string) (opts : list string) (k : nat) :
  find_containing bl k opts = None <-> forall o, In o opts -> holds bl o = false.
Proof.
  revert k; induction opts as [|o opts IH]; intros k.
  - split; [intros _ ? [] | reflexivity].
  - cbn [find_containing]. fold (holds bl o). destruct (holds bl o) eqn:E.
    + split; [discriminate|]. intros H. rewrite (H o) in E; [discriminate | now left].
    + rewrite IH. split.
      * intros H o' [<-|Hin]; auto.
      * intros H o' Hin. apply H. now right.
Qed.

Lemma fuzzy_match_some (bw : list string) (opts : list string) (k n i : nat) :
  exists i', snd (fuzzy_match bw k opts (n, Some i)) = Some i'.
Proof.
  revert k n i; induction opts as [|o opts IH]; intros k n i.
  - exists i. reflexivity.
  - cbn [fuzzy_match fst]. destruct (Py.truthy o); [|apply IH].
    destruct (n <? overlap bw (word_set o))%nat; apply IH.
Qed.

Lemma fuzzy_match_none (bw : list string) (opts : list string) (k n : nat) :
  snd (fuzzy_match bw k opts (n, None)) = None <->
  forall o, In o opts -> Py.truthy o = true -> (overlap bw (word_set o) <= n)%nat.
Proof.
  revert k n; induction opts as [|o opts IH]; intros k n.
  - split; [intros _ ? [] | reflexivity].
  - cbn [fuzzy_match fst]. destruct (Py.truthy o) eqn:Et.
    + destruct (n <? overlap bw (word_set o))%nat eqn:E.
      * split.
        -- intros H. destruct (fuzzy_match_some bw opts (S k) (overlap bw (word_set o)) k)
             as (i' & Hi'). congruence.
        -- intros H. apply Nat.ltb_lt in E.
           specialize (H o (or_introl eq_refl) Et). lia.
      * rewrite IH. apply Nat.ltb_ge in E. split.
        -- intros H o' [<-|Hin] Ht; auto.
        -- intros H o' Hin. apply H. now right.
    + rewrite IH. split.
      * intros H o' [<-|Hin] Ht; [congruence | auto].
      * intros H o' Hin. apply H. now right.
Qed.

(** The index found for an answer that is one of the options. *)
Lemma answer_index_member (best_answer : string) (answer_options : list string)
      (j : nat) :
  best_answer <> "" -> nth_error answer_options j = Some best_answer ->
  exists i o,
    answer_index best_answer answer_options = Some i /\ (i <= j)%nat /\
    nth_error answer_options i = Some o /\
    Py.contains (Py.lower o) (Py.lower best_answer) = true /\
    forall pointer_click button_positions answers_area_offset,
      click_best_answer pointer_click best_answer answer_options button_positions
                        answers_area_offset
      = click_answer pointer_click i button_positions answers_area_offset.
Proof.
  intros Hb Hj.
  assert (Hh : holds (Py.lower best_answer) best_answer = true).
  { unfold holds. rewrite (proj2 (truthy_not_empty _) Hb). apply contains_refl. }
  destruct (find_containing_first (Py.lower best_answer) answer_options 0 j best_answer Hj Hh)
    as (i & Hi & Hle).
  destruct (find_containing_some _ _ _ _ Hi) as (o & _ & Hn & Ho).
  rewrite Nat.sub_0_r in Hn. apply andb_true_iff in Ho.
  exists i, o. unfold answer_index. rewrite Hi.
  repeat split; [exact Hle | exact Hn | tauto |].
  intros pointer_click ps off. unfold click_best_answer.
  rewrite (proj2 (truthy_not_empty _) Hb), Hi.
  destruct answer_options; [destruct j; discriminate | reflexivity].
Qed.

(** No option before the index the first loop finds passes its test. *)
Lemma find_containing_before (bl : string) (opts : list string) (k i : nat) :
  find_containing bl k opts = Some i ->
  forall j o, (j < i - k)%nat -> nth_error opts j = Some o -> holds bl o = false.
Proof.
  revert k; induction opts as [|o' opts IH]; intros k H j o Hj Hn; [discriminate|].
  cbn [find_containing] in H. fold (holds bl o') in H.
  destruct (holds bl o') eqn:E.
  - inversion H; subst. lia.
  - destruct j as [|j]; [inversion Hn; subst; exact E|].
    apply (IH (S k) H j o); [lia | exact Hn].
Qed.

(** X7: when the answer is one of the options, [click_best_answer] never
    refuses: the index it clicks is that of the FIRST option that is not
    empty and contains the answer, letter case apart; this index comes no
    later than the answer itself, and an earlier option that contains the
    answer as a substring is the one clicked. *)
Theorem answer_index_of_member (best_answer : string) (answer_options : list string)
        (j : nat) :
  best_answer <> "" -> nth_error answer_options j = Some best_answer ->
  exists i o,
    answer_index best_answer answer_options = Some i /\ (i <= j)%nat /\
    nth_error answer_options i = Some o /\
    o <> "" /\
    Py.contains (Py.lower o) (Py.lower best_answer) = true /\
    (forall k o', (k < i)%nat -> nth_error answer_options k = Some o' ->
       Py.truthy o' && Py.contains (Py.lower o') (Py.lower best_answer) = false) /\
    forall pointer_click button_positions answers_area_offset,
      click_best_answer pointer_click best_answer answer_options button_positions
                        answers_area_offset
      = click_answer pointer_click i button_positions answers_area_offset.
Proof.
  intros Hb Hj.
  assert (Hh : holds (Py.lower best_answer) best_answer = true).
  { unfold holds. rewrite (proj2 (truthy_not_empty _) Hb). apply contains_refl. }
  destruct (find_containing_first (Py.lower best_answer) answer_options 0 j best_answer Hj Hh)
    as (i & Hi & Hle).
  destruct (find_containing_some _ _ _ _ Hi) as (o & _ & Hn & Ho).
  pose proof (find_containing_before _ _ _ _ Hi) as Hfirst.
  rewrite Nat.sub_0_r in Hn, Hfirst. apply andb_true_iff in Ho. destruct Ho as (Ht & Hc).
  exists i, o. unfold answer_index. rewrite Hi.
  split; [reflexivity|]. split; [exact Hle|]. split; [exact Hn|].
  split; [now apply truthy_not_empty|]. split; [exact Hc|]. split.
  - intros k o' Hk Hk'. exact (Hfirst k o' Hk Hk').
  - intros pointer_click ps off. unfold click_best_answer.
    rewrite (proj2 (truthy_not_empty _) Hb), Hi.
    destruct answer_options; [destruct j; discriminate | reflexivity].
Qed.

(** X8: [click_best_answer] finds no index exactly when no non-empty option
    contains the answer and none shares a word with it; it then returns
    False whatever the pointer does, as it does for an empty answer or an
    empty list of options. *)
Theorem click_best_answer_refusal (best_answer : string) (answer_options : list string) :
  (answer_index best_answer answer_options = None <->
   forall o, In o answer_options -> o <> "" ->
     Py.contains (Py.lower o) (Py.lower best_answer) = false /\
     overlap (word_set best_answer) (word_set o) = 0%nat) /\
  (forall pointer_click button_positions answers_area_offset,
     best_answer = "" \/ answer_options = [] \/
     answer_index best_answer answer_options = None ->
     click_best_answer pointer_click best_answer answer_options button_positions
                       answers_area_offset = false).
Proof.
  split.
  - unfold answer_index.
    destruct (find_containing (Py.lower best_answer) 0 answer_options) as [i|] eqn:F.
    + split; [discriminate|]. intros H. exfalso.
      destruct (find_containing_some _ _ _ _ F) as (o & _ & Hn & Ho).
      apply andb_true_iff in Ho. destruct Ho as (Ht & Hc).
      apply nth_error_In in Hn. apply truthy_not_empty in Ht.
      destruct (H o Hn Ht) as (Hc' & _). congruence.
    + rewrite fuzzy_match_none. rewrite find_containing_none in F. split.
      * intros H o Hin Ho. apply truthy_not_empty in Ho. split.
        -- specialize (F o Hin). unfold holds in F. rewrite Ho in F. exact F.
        -- specialize (H o Hin Ho). lia.
      * intros H o Hin Ht. apply truthy_not_empty in Ht.
        destruct (H o Hin Ht) as (_ & E). lia.
  - intros pointer_click ps off H. rewrite click_best_answer_index.
    destruct H as [-> | [-> | H]]; [reflexivity | |].
    + now rewrite orb_true_r.
    + rewrite H. now destruct (_ || _).
Qed.

End Matching.

Lemma click_answer_true_iff_witness :
  AutoClicker.click_answer (fun _ _ => Ok tt) 1 [(200, 150); (600, 150)]%Z (0, 432)%Z = true.
Proof.
  apply (click_answer_true_iff (fun _ _ => Ok tt) 1 [(200, 150); (600, 150)]%Z (0, 432)%Z).
  exists 600%Z, 150%Z. split; reflexivity.
Defined.

Lemma answer_index_of_member_witness :
  AutoClicker.answer_index "York" ["New York"; "York"] = Some 0%nat.
Proof.
  destruct (answer_index_of_member "York" ["New York"; "York"] 1)
    as (i & o & H1 & H2 & _ & _ & _ & Hfirst & _); [discriminate | reflexivity |].
  destruct i as [|[|i]]; [exact H1 | | lia].
  exfalso. specialize (Hfirst 0%nat "New York"%string (Nat.lt_0_succ 0) eq_refl).
  vm_compute in Hfirst. discriminate Hfirst.
Defined.

Lemma click_best_answer_refusal_witness :
  AutoClicker.click_best_answer (fun _ _ => Ok tt) "Rome" ["London"; "Paris"]
    [(200, 150); (600, 150)]%Z (0, 432)%Z = false.
Proof.
  apply (click_best_answer_refusal "Rome" ["London"; "Paris"]).
  right. right. reflexivity.
Defined.

(** ** answer_searcher.py *)

Section ScoreMap.

Import AnswerSearcher.
Local Open Scope Q_scope.

(** X9: in every case the map [extract_potential_answers] returns has the
    options as its keys, each once, and gives each option one score, which
    lies in [0,1]: no option is dropped and none is added. *)
Theorem score_map_covers_options (search_results : list search_result)
        (answer_options : list string) :
  let scores := extract_potential_answers search_results answer_options in
  NoDup (keys scores) /\
  (forall o, In o (keys scores) <-> In o answer_options) /\
  (forall o, In o answer_options ->
             exists v, dict_get o scores = Some v /\ 0 <= v /\ v <= 1) /\
  (List.length scores <= List.length answer_options)%nat.
Proof.
  intros scores.
  assert (Hk : forall o, In o (keys scores) <-> In o answer_options).
  { intros o. unfold scores. rewrite extract_keys. apply zero_scores_keys. }
  split; [apply extract_NoDup|]. split; [exact Hk|]. split.
  - intros o Ho. apply Hk in Ho. apply dict_get_key in Ho. destruct Ho as (v & G).
    exists v. split; [exact G|]. eapply extract_range. exact G.
  - replace (List.length scores) with (List.length (keys scores))
      by (unfold keys; apply length_map).
    apply NoDup_incl_length; [apply extract_NoDup|].
    intros o Ho. now apply Hk.
Qed.

End ScoreMap.

Section Recommendation.

Import AnswerSearcher.
Local Open Scope Q_scope.

Variable search_google : string -> nat -> list search_result.

Lemma max_item_from_start (l : dict) (m : string * Q) :
  (forall x, In x l -> snd x <= snd m) -> max_item_from m l = m.
Proof.
  revert m; induction l as [|x l IH]; intros m H; [reflexivity|].
  cbn [max_item_from].
  rewrite (proj2 (Qlt_bool_false _ _) (H x (or_introl eq_refl))).
  apply IH. intros y Hy. apply H. now right.
Qed.

(** The first key of the score map is the first option. *)
Lemma zero_scores_head (o : string) (os : list string) :
  exists d, zero_scores (o :: os) = (o, 0) :: d.
Proof.
  unfold zero_scores. cbn [fold_left dict_set].
  generalize (@nil (string * Q)) as d. induction os as [|k os IH]; intros d.
  - exists d. reflexivity.
  - cbn [fold_left dict_set]. destruct (String.eqb_spec k o) as [->|]; apply IH.
Qed.

Lemma keys_head (d d' : dict) (o : string) (v : Q) :
  keys d = keys ((o, v) :: d') -> exists v' r, d = (o, v') :: r.
Proof.
  destruct d as [|[k v'] r]; [discriminate|]. cbn. intros H. inversion H; subst.
  now exists v', r.
Qed.

Lemma all_results_silent (query : string) :
  (forall q n, search_google q n = []) -> all_results search_google query = [].
Proof.
  intros H. unfold all_results, search_educational_sites. rewrite H.
  cbn [app]. induction educational_sites as [|s l IH]; [reflexivity|].
  cbn [flat_map]. now rewrite H, IH.
Qed.

(** The recommendation when every score is zero. *)
Lemma find_best_answer_zero (question o : string) (os : list string) :
  question <> ""%string ->
  (all_zero (scores_for search_google question (o :: os)) ->
   fst (find_best_answer search_google question (o :: os)) = o /\
   snd (find_best_answer search_google question (o :: os)) == 0) /\
  ((forall q n, search_google q n = []) ->
   find_best_answer search_google question (o :: os) = (o, 0)).
Proof.
  intros Hq.
  destruct (find_best_answer_normal search_google question (o :: os) Hq)
    as (item & items & Es & Eb); [discriminate|].
  assert (Hhead : exists v, item = (o, v)).
  { destruct (zero_scores_head o os) as (d & Ed).
    assert (K : keys (scores_for search_google question (o :: os)) = keys ((o, 0) :: d)).
    { unfold scores_for. rewrite extract_keys, Ed. reflexivity. }
    apply keys_head in K. destruct K as (v' & r & K). rewrite K in Es.
    inversion Es; subst. now exists v'. }
  destruct Hhead as (v & ->).
  assert (Hz : all_zero (scores_for search_google question (o :: os)) ->
               find_best_answer search_google question (o :: os) = (o, v) /\ v == 0).
  { intros Hzero. rewrite Es in Hzero.
    assert (Hv : v == 0) by (apply (Hzero o v); now left).
    split; [|exact Hv]. rewrite Eb. apply max_item_from_start.
    intros [k x] Hx. cbn [snd]. rewrite Hv, (Hzero k x); [apply Qle_refl | now right]. }
  split.
  - intros Hzero. destruct (Hz Hzero) as (E & Hv). rewrite E. split; [reflexivity | exact Hv].
  - intros Hsilent.
    assert (E0 : scores_for search_google question (o :: os) = zero_scores (o :: os)).
    { unfold scores_for. rewrite all_results_silent by exact Hsilent. reflexivity. }
    assert (Hzero : all_zero (scores_for search_google question (o :: os))).
    { rewrite E0. intros k x Hx. apply zero_scores_values in Hx. subst. reflexivity. }
    destruct (Hz Hzero) as (E & _). rewrite E. f_equal.
    apply (zero_scores_values (o :: os) o). rewrite <- E0, Es. now left.
Qed.

(** X10: when no option matches anything, that is when every score of the
    map is zero, [find_best_answer] recommends the first option with a
    confidence of zero; this is the case whenever every search returns
    nothing. *)
Theorem find_best_answer_without_evidence (question o : string) (os : list string) :
  question <> ""%string ->
  (all_zero (scores_for search_google question (o :: os)) ->
   fst (find_best_answer search_google question (o :: os)) = o /\
   snd (find_best_answer search_google question (o :: os)) == 0) /\
  ((forall q n, search_google q n = []) ->
   find_best_answer search_google question (o :: os) = (o, 0)).
Proof. exact (find_best_answer_zero question o os). Qed.

(** X11: the confidence [find_best_answer] returns for a question and
    options is 0 when every raw score is zero and 1 otherwise: it takes no
    other value. *)
Theorem confidence_is_zero_or_one (question : string) (answer_options : list string) :
  question <> ""%string -> answer_options <> [] ->
  let raw := raw_scores (all_results search_google
                           (AnswerSearcher.search_query question answer_options))
                        answer_options in
  let confidence := snd (find_best_answer search_google question answer_options) in
  (all_zero raw -> confidence == 0) /\
  (~ all_zero raw -> confidence == 1) /\
  (confidence == 0 \/ confidence == 1).
Proof.
  intros Hq Ho raw confidence.
  destruct (best_answer_first_max search_google question answer_options Hq Ho)
    as (G & Hmax & _).
  fold confidence in G, Hmax.
  set (best := fst (find_best_answer search_google question answer_options)) in *.
  unfold scores_for in G, Hmax.
  set (results := all_results search_google
                    (AnswerSearcher.search_query question answer_options)) in *.
  fold raw.
  assert (Hraw : raw <> []).
  { destruct answer_options as [|o os]; [congruence|].
    destruct (raw_scores_get results (o :: os) o (or_introl eq_refl)) as (v & E & _).
    fold raw in E. intros R. rewrite R in E. discriminate. }
  assert (Hrange : 0 <= confidence /\ confidence <= 1) by (eapply extract_range; exact G).
  assert (Hcases : (all_zero raw /\ confidence == 0) \/ (~ all_zero raw /\ confidence == 1)).
  { destruct (Qlt_bool 0 (max_score raw)) eqn:E.
    - right. apply Qlt_bool_iff in E.
      destruct (max_score_In raw Hraw) as (k & Hk). split.
      + intros Hz. apply Hz in Hk. rewrite Hk in E. discriminate.
      + assert (Hres : results <> []).
        { intros R. pose proof (raw_scores_no_results answer_options) as Hz.
          unfold raw in Hk. rewrite R in Hk. apply Hz in Hk.
          unfold raw in E. rewrite R, Hk in E. discriminate. }
        assert (Gk : dict_get k (extract_potential_answers results answer_options)
                     = Some (max_score raw / max_score raw)).
        { unfold extract_potential_answers.
          destruct results; [congruence|]. destruct answer_options; [congruence|].
          cbn [Py.is_nil orb]. fold raw. rewrite normalize_get.
          rewrite (proj2 (Qlt_bool_iff _ _) E).
          rewrite (In_dict_get k raw (max_score raw)); [reflexivity | | exact Hk].
          apply raw_scores_NoDup. }
        apply Hmax in Gk. rewrite normalized_max in Gk by exact E.
        apply Qle_antisym; tauto.
    - left. apply Qlt_bool_false in E.
      assert (Hz : all_zero raw).
      { intros k v Hin. apply Qle_antisym.
        - eapply Qle_trans; [eapply max_score_ge; exact Hin | exact E].
        - eapply raw_scores_nonneg. exact Hin. }
      split; [exact Hz|].
      unfold extract_potential_answers in G. destruct (_ || _).
      + apply dict_get_In, zero_scores_values in G. rewrite G. reflexivity.
      + rewrite normalize_get in G. fold raw in G.
        rewrite (proj2 (Qlt_bool_false _ _) E) in G.
        eapply Hz. eapply dict_get_In. exact G. }
  split; [|split].
  - intros Hz. destruct Hcases as [(_ & H)|(H & _)]; [exact H | contradiction].
  - intros Hz. destruct Hcases as [(H & _)|(_ & H)]; [contradiction | exact H].
  - destruct Hcases as [(_ & H)|(_ & H)]; [now left | now right].
Qed.

(** X12: when each search returns at most the number of results asked for,
    [find_best_answer] scores at most 13 results: 3 of the general search
    and 2 for each of the five educational sites. *)
Theorem all_results_bounded (query : string) :
  (forall q n, (List.length (search_google q n) <= n)%nat) ->
  (List.length (all_results search_google query) <= 13)%nat /\
  (List.length (search_educational_sites search_google query) <= 10)%nat.
Proof.
  intros Hcap.
  assert (H10 : (List.length (search_educational_sites search_google query) <= 10)%nat).
  { unfold search_educational_sites, educational_sites. cbn [flat_map].
    rewrite !length_app. cbn [List.length].
    repeat match goal with
           | |- context [List.length (search_google ?q 2%nat)] =>
               let H := fresh in
               pose proof (Hcap q 2%nat) as H;
               generalize dependent (List.length (search_google q 2%nat)); intros
           end.
    lia. }
  split; [|exact H10].
  unfold all_results. rewrite length_app.
  pose proof (Hcap query 3%nat). lia.
Qed.

End Recommendation.

Section Query.

Import AnswerSearcher.

Lemma split_tokens (s w : string) :
  In w (Py.split s) -> Py.truthy w = true /\ Py.no_space w = true.
Proof.
  revert w; induction s as [|c r IH]; intros w Hin; cbn [Py.split] in Hin.
  - contradiction.
  - destruct (Py.is_space c) eqn:Ec; [auto|].
    assert (Hone : Py.truthy (String c "") = true /\ Py.no_space (String c "") = true).
    { split; [reflexivity|]. unfold Py.no_space. cbn. now rewrite Ec. }
    destruct r as [|d r'].
    + destruct Hin as [<-|[]]. exact Hone.
    + destruct (Py.is_space d).
      * destruct Hin as [<-|Hin]; [exact Hone | auto].
      * destruct (Py.split (String d r')) as [|h t].
        -- destruct Hin as [<-|[]]. exact Hone.
        -- destruct Hin as [<-|Hin].
           ++ split; [reflexivity|]. unfold Py.no_space.
              cbn [list_ascii_of_string forallb]. rewrite Ec. cbn [negb andb].
              apply (IH h). now left.
           ++ apply IH. now right.
Qed.

(** A token followed by the end of the text or by white space is the first
    word of the text. *)
Lemma split_token_app (w t : string) :
  Py.truthy w = true -> Py.no_space w = true ->
  (t = "" \/ exists c r, t = String c r /\ Py.is_space c = true) ->
  Py.split (w ++ t) = w :: Py.split t.
Proof.
  intros Hw Hns Ht. induction w as [|c w IH]; [discriminate|].
  unfold Py.no_space in Hns. cbn [list_ascii_of_string forallb] in Hns.
  apply andb_true_iff in Hns. destruct Hns as (Hc & Hns).
  apply negb_true_iff in Hc.
  destruct w as [|c' w'].
  - cbn [append Py.split]. rewrite Hc.
    destruct Ht as [->|(d & r & -> & Hd)]; [reflexivity|]. now rewrite Hd.
  - specialize (IH eq_refl Hns).
    cbn [list_ascii_of_string forallb] in Hns.
    apply andb_true_iff in Hns. destruct Hns as (Hc' & _). apply negb_true_iff in Hc'.
    change ((String c (String c' w') ++ t)%string)
      with (String c (String c' w' ++ t)%string).
    change ((String c' w' ++ t)%string) with (String c' (w' ++ t)%string) in IH |- *.
    cbn [Py.split]. rewrite Hc, Hc'.
    cbn [Py.split] in IH. rewrite Hc' in IH. rewrite IH. reflexivity.
Qed.

(** Splitting what [' '.join] made of tokens gives the tokens back. *)
Lemma split_join (ws : list string) :
  (forall w, In w ws -> Py.truthy w = true /\ Py.no_space w = true) ->
  Py.split (Py.join " " ws) = ws.
Proof.
  induction ws as [|w ws IH]; intros H; [reflexivity|].
  destruct (H w (or_introl eq_refl)) as (Hw & Hns).
  unfold Py.join in *. cbn [concat]. destruct ws as [|w' ws'].
  - pose proof (split_token_app w "" Hw Hns (or_introl eq_refl)) as E.
    assert (A : (w ++ "")%string = w)
      by (clear; induction w; [reflexivity | cbn; now f_equal]).
    rewrite A in E. exact E.
  - rewrite split_token_app; [|exact Hw | exact Hns |].
    + f_equal. change (" " ++ concat " " (w' :: ws'))%string
        with (String " " (concat " " (w' :: ws'))).
      cbn [Py.split]. replace (Py.is_space " ") with true by reflexivity.
      apply IH. intros x Hx. apply H. now right.
    + right. eexists. eexists. split; reflexivity.
Qed.

(** X13: [clean_query] returns the words it keeps joined by single spaces,
    so that splitting its result gives these words back; the words kept are
    those of the lower-cased question other than which, what, who, where,
    when and how; the entry [the following] of the list of filler words
    never removes anything, a word having no space. *)
Theorem clean_query_words (question : string) :
  let words := Py.split (Py.lower (Py.drop_trailing is_final_punctuation
                                     (Py.collapse_ws (Py.strip question)))) in
  let kept := filter (fun w => negb (existsb (String.eqb w) filler_single_words)) words in
  clean_query question = Py.join " " kept /\
  Py.split (clean_query question) = kept /\
  (forall w, In w (Py.split (clean_query question)) -> ~ In w filler_words).
Proof.
  intros words kept.
  assert (Hsame : filter (fun w => negb (existsb (String.eqb w) filler_words)) words = kept).
  { unfold kept. apply filter_ext_in. intros w Hw.
    apply split_tokens in Hw. destruct Hw as (_ & Hns).
    unfold filler_words, filler_single_words. cbn [existsb].
    destruct (String.eqb_spec w "the following") as [->|_]; [discriminate|].
    now rewrite !orb_false_r. }
  assert (E : clean_query question = Py.join " " kept).
  { unfold clean_query. destruct question as [|c r]; [reflexivity|].
    cbn [Py.truthy negb]. fold words. now rewrite Hsame. }
  assert (Hkept : forall w, In w kept -> Py.truthy w = true /\ Py.no_space w = true).
  { intros w Hw. unfold kept in Hw. apply filter_In in Hw. destruct Hw as (Hw & _).
    unfold words in Hw. eapply split_tokens. exact Hw. }
  split; [exact E|]. split.
  - rewrite E. now apply split_join.
  - intros w Hw. rewrite E, split_join in Hw by exact Hkept.
    rewrite <- Hsame in Hw. apply filter_In in Hw. destruct Hw as (_ & Hw).
    apply negb_true_iff in Hw. intros Hin. apply existsb_eqb_In in Hin. congruence.
Qed.

End Query.

(** ** kahoot_agent.py: one cycle, several cycles *)

Section OneCycle.

Import KahootAgent.
Local Open Scope Q_scope.

Variable C : collaborators.

(** A cycle either stops before the search, with its state untouched, or
    has recognized a question and options. *)
Lemma cycle_cases (self : agent) :
  (exists l, cycle C self = (false, self, l) /\
             filter is_search l = [] /\ filter is_click l = []) \/
  (exists q opts, recognizes C q opts /\ Py.truthy q = true /\ opts <> []).
Proof.
  unfold cycle, process_question, try_except, capture_and_analyze, bind, tell, lift, ret,
    recognizes.
  destruct (capture_question_area C) as [qi|] eqn:Hq;
    [|left; eexists; cbn; repeat split].
  destruct (capture_answers_area C) as [ai|] eqn:Ha;
    [|left; eexists; cbn; repeat split].
  destruct (extract_question C (Some qi)) as [[q|]|] eqn:Eq;
    try (left; eexists; cbn; repeat split; fail).
  cbn [truthy_opt].
  destruct (Py.truthy q) eqn:Hqt;
    [|left; eexists; cbn; repeat split]. cbn [negb].
  destruct (extract_answers C (Some ai)) as [opts|] eqn:Ea;
    [|left; eexists; cbn; repeat split].
  destruct opts as [|o opts];
    [left; eexists; cbn; rewrite Hqt; cbn; repeat split|].
  right. exists q, (o :: opts). split; [|split; [exact Hqt | discriminate]].
  exists qi, ai. auto.
Qed.

Lemma capture_calls_filter (opts : list string) :
  filter is_search (capture_calls C opts) = [] /\
  filter is_click (capture_calls C opts) = [].
Proof. unfold capture_calls. destruct (Py.is_nil _); split; reflexivity. Qed.

Lemma cycle_outcome (self : agent) : outcome C self (cycle C self).
Proof.
  destruct (cycle_cases self) as [(l & E & Hs & Hc) | (q & opts & Hrec & Hq & Ho)].
  - rewrite E. now constructor.
  - rewrite (cycle_recognized C self q opts Hrec Hq Ho).
    destruct (String.eqb_spec q (last_question self)) as [Hsame|Hnew].
    + now apply (SameQuestion C self q opts).
    + cbv zeta. destruct (Py.truthy (fst (find_best_answer C q opts))) eqn:Hb; cbn [negb].
      * destruct (should_click _ _ _ _) eqn:Hg.
        -- apply should_click_iff in Hg. destruct Hg as (? & ? & ?).
           now apply (Clicked C self q opts).
        -- now apply (Recommended C self q opts).
      * now apply (NoAnswer C self q opts).
Qed.

End OneCycle.

Section CycleEffects.

Import KahootAgent.
Local Open Scope Q_scope.

Lemma count_calls_app (p : call -> bool) (l l' : list call) :
  count_calls p (l ++ l') = (count_calls p l + count_calls p l')%nat.
Proof. unfold count_calls. now rewrite filter_app, length_app. Qed.

Lemma count_calls_capture (C : collaborators) (opts : list string) :
  count_calls is_search (capture_calls C opts) = 0%nat /\
  count_calls is_click (capture_calls C opts) = 0%nat.
Proof.
  unfold count_calls. destruct (capture_calls_filter C opts) as (-> & ->). now split.
Qed.

Lemma existsb_filter_nil (p : call -> bool) (l : list call) :
  filter p l = [] -> existsb p l = false.
Proof.
  induction l as [|c l IH]; [reflexivity|]. cbn. destruct (p c); [discriminate | exact IH].
Qed.

(** X14: a cycle that does not recognize both a non-empty question and a
    non-empty list of options, because a capture is missing, the recognizer
    raises or the text is empty, returns False, leaves the agent as it was
    and invokes neither the search nor the click. *)
Theorem unrecognized_cycle_is_inert (C : collaborators) (self : agent) :
  ~ (exists q opts, recognizes C q opts /\ q <> ""%string /\ opts <> []) ->
  let r := cycle C self in
  result r = false /\ state r = self /\ searched r = false /\ clicked r = false.
Proof.
  intros Hno r. unfold r.
  destruct (cycle_cases C self) as [(l & E & Hs & Hc) | (q & opts & Hrec & Hq & Ho)].
  - rewrite E. unfold result, state, searched, clicked, calls. cbn [fst snd].
    repeat split; now apply existsb_filter_nil.
  - exfalso. apply Hno. exists q, opts. split; [exact Hrec|].
    split; [now apply truthy_not_empty | exact Ho].
Qed.

(** X15: a cycle changes nothing of the agent but [last_question] and
    [question_count]; it searches at most once, [question_count] grows by
    the number of searches, and without a search the whole state is
    unchanged. *)
Theorem question_count_counts_searches (C : collaborators) (self : agent) :
  let r := cycle C self in
  question_count (state r) = (question_count self + count_calls is_search (calls r))%nat /\
  (count_calls is_search (calls r) <= 1)%nat /\
  (searched r = false -> state r = self) /\
  auto_click (state r) = auto_click self /\
  min_confidence (state r) = min_confidence self /\
  scan_interval (state r) = scan_interval self /\
  running (state r) = running self.
Proof.
  intros r. unfold r. destruct (cycle_outcome C self);
    unfold state, calls, searched, searched_state, incr_question_count, set_last_question;
    cbn [fst snd];
    rewrite ?count_calls_app, ?existsb_app;
    try (destruct (count_calls_capture C opts) as (-> & _));
    try (destruct (capture_calls_no_click C opts) as (_ & ->)).
  - unfold count_calls. rewrite H. cbn. repeat split; lia.
  - cbn. repeat split; lia.
  - cbn. repeat split; try lia.
    intros X. rewrite existsb_app in X. cbn in X. rewrite orb_true_r in X. discriminate X.
  - cbn. repeat split; try lia.
    intros X. rewrite existsb_app in X. cbn in X. rewrite orb_true_r in X. discriminate X.
  - cbn. repeat split; try lia.
    intros X. rewrite existsb_app in X. cbn in X. rewrite orb_true_r in X. discriminate X.
Qed.

(** X16: whatever the collaborators do, a cycle invokes the click action at
    most once, and only in a cycle that searched, with auto-click enabled;
    such a cycle reports success. With auto-click disabled no cycle ever
    clicks. *)
Theorem click_requires_auto_click (C : collaborators) (self : agent) :
  let r := cycle C self in
  (count_calls is_click (calls r) <= 1)%nat /\
  (clicked r = true ->
   auto_click self = true /\ searched r = true /\ result r = true) /\
  (auto_click self = false -> clicked r = false).
Proof.
  intros r. unfold r. clear r.
  destruct (cycle_outcome C self) as [l Hs Hc | q opts | q opts | q opts ? ? ? Hauto | q opts];
    unfold searched, clicked, count_calls, result, calls; cbn [fst snd].
  - rewrite Hc, (existsb_filter_nil _ _ Hc). cbn.
    split; [lia|]. split; [intros X; discriminate X | reflexivity].
  - destruct (capture_calls_filter C opts) as (Fs & Fc).
    destruct (capture_calls_no_click C opts) as (Ec & Es).
    rewrite Fc, Ec. cbn.
    split; [lia|]. split; [intros X; discriminate X | reflexivity].
  - destruct (capture_calls_filter C opts) as (Fs & Fc).
    destruct (capture_calls_no_click C opts) as (Ec & Es).
    rewrite filter_app, !existsb_app, Fc, Ec. cbn.
    split; [lia|]. split; [intros X; discriminate X | reflexivity].
  - destruct (capture_calls_filter C opts) as (Fs & Fc).
    destruct (capture_calls_no_click C opts) as (Ec & Es).
    rewrite filter_app, !existsb_app, Fc, Ec, Es. cbn.
    split; [lia|]. split; [intros _; repeat split; exact Hauto | congruence].
  - destruct (capture_calls_filter C opts) as (Fs & Fc).
    destruct (capture_calls_no_click C opts) as (Ec & Es).
    rewrite filter_app, !existsb_app, Fc, Ec. cbn.
    split; [lia|]. split; [intros X; discriminate X | reflexivity].
Qed.

(** X17: a search that finds no answer is not tried again: the cycle
    reports failure but has already recorded the question, so the next
    cycle on the same question reports success without searching. *)
Theorem failed_search_not_retried (C : collaborators) (self : agent)
        (q : string) (opts : list string) :
  recognizes C q opts -> q <> ""%string -> opts <> [] ->
  q <> last_question self ->
  fst (find_best_answer C q opts) = ""%string ->
  let first := cycle C self in
  let second := cycle C (state first) in
  result first = false /\ searched first = true /\
  last_question (state first) = q /\
  result second = true /\ searched second = false /\ state second = state first.
Proof.
  intros Hrec Hq Ho Hnew Hbest first second.
  apply truthy_not_empty in Hq.
  assert (E1 : first = (false, searched_state q self,
                        capture_calls C opts ++ [FindBestAnswer q opts])).
  { unfold first. rewrite (cycle_recognized C self q opts Hrec Hq Ho).
    apply String.eqb_neq in Hnew. rewrite Hnew. cbv zeta. now rewrite Hbest. }
  assert (E2 : second = (true, searched_state q self, capture_calls C opts)).
  { unfold second. rewrite E1. unfold state. cbn [fst snd].
    rewrite (cycle_recognized C _ q opts Hrec Hq Ho).
    unfold searched_state at 1. cbn [last_question incr_question_count set_last_question].
    now rewrite String.eqb_refl. }
  rewrite E1, E2. unfold result, searched, state, calls. cbn [fst snd].
  destruct (capture_calls_no_click C opts) as (_ & Hs).
  rewrite existsb_app, Hs. repeat split.
Qed.

End CycleEffects.

Section Runs.

Import KahootAgent.
Local Open Scope Q_scope.

(** What one cycle adds to the counts of a run. *)
Lemma cycle_counts (C : collaborators) (self : agent) :
  let r := cycle C self in
  let searches := count_calls is_search (calls r) in
  let clicks := count_calls is_click (calls r) in
  question_count (state r) = (question_count self + searches)%nat /\
  (clicks <= searches)%nat /\ (searches <= 1)%nat /\
  (auto_click self = false -> clicks = 0%nat) /\
  auto_click (state r) = auto_click self /\
  min_confidence (state r) = min_confidence self /\
  scan_interval (state r) = scan_interval self /\
  running (state r) = running self.
Proof.
  intros r. unfold r. clear r.
  destruct (cycle_outcome C self) as [l Hs Hc | q opts | q opts | q opts ? ? ? Hauto | q opts];
    unfold count_calls, state, calls, searched_state, incr_question_count,
      set_last_question; cbn [fst snd];
    try (destruct (capture_calls_filter C opts) as (Fs & Fc));
    rewrite ?filter_app, ?Fs, ?Fc, ?Hs, ?Hc; cbn;
    repeat split; try lia; congruence.
Qed.

Lemma cycles_counts (screens : list collaborators) (self : agent) :
  let final := fst (cycles screens self) in
  let log := snd (cycles screens self) in
  question_count final = (question_count self + count_calls is_search log)%nat /\
  (count_calls is_click log <= count_calls is_search log)%nat /\
  (count_calls is_search log <= List.length screens)%nat /\
  (auto_click self = false -> count_calls is_click log = 0%nat) /\
  auto_click final = auto_click self /\
  min_confidence final = min_confidence self /\
  scan_interval final = scan_interval self /\
  running final = running self.
Proof.
  revert self; induction screens as [|C screens IH]; intros self.
  - cbn. repeat split; lia.
  - cbn [cycles]. specialize (IH (state (cycle C self))).
    destruct (cycles screens (state (cycle C self))) as [final log].
    cbn [fst snd] in IH |- *.
    destruct (cycle_counts C self) as (Q & K & S1 & A0 & A & M & I & R).
    destruct IH as (Q' & K' & S' & A0' & A' & M' & I' & R').
    rewrite !count_calls_app. cbn [List.length].
    repeat split; try lia; try congruence.
    intros Hoff. rewrite A0 by exact Hoff. rewrite A0'; [reflexivity | congruence].
Qed.

(** X18: when [run_continuous] ends, [running] is False, the settings
    [auto_click], [min_confidence] and [scan_interval] are what they were,
    [question_count] has grown by the number of searches made, there were
    at most as many clicks as searches and at most one search for each
    cycle, and no click at all if auto-click is disabled. *)
Theorem run_continuous_counts (screens : list collaborators) (self : agent) :
  let final := fst (run_continuous screens self) in
  let log := snd (run_continuous screens self) in
  running final = false /\
  auto_click final = auto_click self /\
  min_confidence final = min_confidence self /\
  scan_interval final = scan_interval self /\
  question_count final = (question_count self + count_calls is_search log)%nat /\
  (count_calls is_click log <= count_calls is_search log)%nat /\
  (count_calls is_search log <= List.length screens)%nat /\
  (auto_click self = false -> count_calls is_click log = 0%nat).
Proof.
  unfold run_continuous.
  pose proof (cycles_counts screens (set_running true self)) as H.
  destruct (cycles screens (set_running true self)) as [final log].
  cbn [fst snd] in H |- *.
  destruct H as (Q & K & S1 & A0 & A & M & I & R).
  cbn in Q, A0, A, M, I.
  repeat split; cbn; try assumption.
Qed.

(** After a cycle that neither searched nor changed the state, every
    further cycle on the same screen does the same. *)
Lemma cycles_inert (C : collaborators) (self : agent) (b : bool) (l : list call) (n : nat) :
  cycle C self = (b, self, l) -> filter is_search l = [] ->
  count_calls is_search (snd (cycles (repeat C n) self)) = 0%nat.
Proof.
  intros E Hs. induction n as [|n IH]; [reflexivity|].
  cbn [repeat cycles]. rewrite E. unfold state, calls. cbn [fst snd].
  destruct (cycles (repeat C n) self) as [final log]. cbn [snd] in IH |- *.
  rewrite count_calls_app, IH. unfold count_calls. now rewrite Hs.
Qed.

(** X19: however many cycles run on one and the same screen, the search is
    invoked at most once: after the first cycle that recognizes the
    question, the following ones find it in [last_question]. *)
Theorem same_screen_searched_once (C : collaborators) (self : agent) (n : nat) :
  (count_calls is_search (snd (cycles (repeat C n) self)) <= 1)%nat.
Proof.
  destruct n as [|n]; [cbn; lia|].
  cbn [repeat cycles].
  assert (Hnext : forall q opts b l,
             recognizes C q opts -> q <> last_question self ->
             cycle C self = (b, searched_state q self,
                             capture_calls C opts ++ FindBestAnswer q opts :: l) ->
             filter is_search l = [] ->
             (count_calls is_search
                (snd (let r := cycle C self in
                      let '(final, log) := cycles (repeat C n) (state r) in
                      (final, calls r ++ log))) <= 1)%nat).
  { intros q opts b l Hrec Hnew E Hl. cbv zeta. rewrite E. unfold state, calls. cbn [fst snd].
    assert (Hin : count_calls is_search
                    (snd (cycles (repeat C n) (searched_state q self))) = 0%nat).
    { destruct (cycle_cases C self) as [(l0 & E0 & _) | (q' & opts' & Hrec' & Hq' & Ho')].
      - rewrite E0 in E. injection E as Hb Hst Hl0.
        exfalso. apply (f_equal question_count) in Hst. cbn in Hst. lia.
      - destruct Hrec as (qi & ai & Hcq & Hca & Heq & Hea).
        destruct Hrec' as (qi' & ai' & Hcq' & Hca' & Heq' & Hea').
        assert (qi' = qi) by congruence. assert (ai' = ai) by congruence. subst.
        assert (q' = q) by congruence. assert (opts' = opts) by congruence. subst.
        apply (cycles_inert C (searched_state q self) true (capture_calls C opts)).
        + rewrite (cycle_recognized C _ q opts); [| exists qi, ai; auto | exact Hq' | exact Ho'].
          unfold searched_state at 1.
          cbn [last_question incr_question_count set_last_question].
          now rewrite String.eqb_refl.
        + apply capture_calls_filter. }
    destruct (cycles (repeat C n) (searched_state q self)) as [final log].
    cbn [snd] in Hin |- *.
    rewrite !count_calls_app, Hin.
    destruct (count_calls_capture C opts) as (-> & _).
    unfold count_calls. cbn [filter is_search]. rewrite Hl. cbn. lia. }
  pose proof (cycle_outcome C self) as O.
  remember (cycle C self) as r eqn:E. symmetry in E.
  destruct O as [l Hs Hc | q opts Hrec | q opts Hrec Hnew
                | q opts Hrec Hnew | q opts Hrec Hnew].
  - pose proof (cycles_inert C self false l n E Hs) as H0.
    cbv zeta. unfold state, calls. cbn [fst snd].
    destruct (cycles (repeat C n) self) as [final log]. cbn [snd] in H0 |- *.
    rewrite count_calls_app, H0. unfold count_calls. rewrite Hs. cbn. lia.
  - destruct (capture_calls_filter C opts) as (Fs & _).
    pose proof (cycles_inert C self true _ n E Fs) as H0.
    cbv zeta. unfold state, calls. cbn [fst snd].
    destruct (cycles (repeat C n) self) as [final log]. cbn [snd] in H0 |- *.
    rewrite count_calls_app, H0. unfold count_calls. rewrite Fs. cbn. lia.
  - apply (Hnext q opts false [] Hrec Hnew); reflexivity.
  - eapply (Hnext q opts true [_] Hrec Hnew); reflexivity.
  - apply (Hnext q opts true [] Hrec Hnew); reflexivity.
Qed.

End Runs.

(** ** The pieces together *)

Section Pipeline.

Import KahootAgent.
Local Open Scope Q_scope.

(** What the localizer of the repository returns in a cycle that
    recognized options: one quadrant centre for each option. *)
Lemma real_positions (w : world) (q : string) (opts : list string) :
  recognizes (real w) q opts -> opts <> [] ->
  exists ai, answers_img w = Some ai /\
    positions_of (real w) opts
      = firstn (List.length opts) (AutoClicker.quadrants (height ai) (width ai)) /\
    List.length (positions_of (real w) opts) = List.length opts.
Proof.
  intros (qi & ai & _ & Ha & _ & Ea) Ho.
  unfold real in Ha, Ea. cbn [capture_answers_area extract_answers] in Ha, Ea.
  assert (Hlen : (List.length opts <= 4)%nat).
  { unfold OCRExtractor.extract_answers in Ea.
    destruct (recognize w ai) as [text|]; [|discriminate]. inversion Ea; subst.
    rewrite parse_answer_options_eq. apply firstn_le_length. }
  exists ai. split; [exact Ha|].
  assert (E : positions_of (real w) opts
              = firstn (List.length opts) (AutoClicker.quadrants (height ai) (width ai))).
  { unfold positions_of, real. cbn [find_answer_buttons capture_answers_area
                                      find_color_coded_answers].
    rewrite Ha. unfold AutoClicker.find_answer_buttons.
    destruct opts as [|o os]; [congruence|]. cbn [Py.is_nil].
    rewrite (Nat.min_l _ 4 Hlen). reflexivity. }
  split; [exact E|]. rewrite E, length_firstn. cbn [AutoClicker.quadrants List.length]. lia.
Qed.

(** X20: with the recognizer, searcher and localizer of the repository the
    click on the recommended answer is never refused and never out of
    range: the answer designates an option, that option has a button
    position, and [click_best_answer] returns True unless the pointer
    itself raises. *)
Theorem real_click_reaches_pointer (w : world) (q : string) (opts : list string) :
  recognizes (real w) q opts -> opts <> [] ->
  let best := fst (find_best_answer (real w) q opts) in
  let positions := positions_of (real w) opts in
  exists i x y,
    AutoClicker.answer_index best opts = Some i /\
    nth_error positions i = Some (x, y) /\
    forall offset,
      click_best_answer (real w) best opts positions offset
      = match pointer_click w (x + fst offset) (y + snd offset) with
        | Ok _ => true
        | Raised => false
        end.
Proof.
  intros Hrec Ho best positions.
  destruct (real_recognizes w q opts Hrec) as (Hq & Hopts).
  assert (Hin : In best opts).
  { apply (best_answer_is_an_option (web w) q opts); [|exact Ho].
    now apply truthy_not_empty. }
  assert (Hb : best <> ""%string) by (apply truthy_not_empty; now apply Hopts).
  destruct (In_nth_error _ _ Hin) as (j & Hj).
  destruct (answer_index_member best opts j Hb Hj) as (i & o & Hi & Hle & Hn & _ & Hclick).
  destruct (real_positions w q opts Hrec Ho) as (ai & _ & _ & Hlen). fold positions in Hlen.
  assert (Hlt : (i < List.length positions)%nat).
  { rewrite Hlen. apply nth_error_Some. congruence. }
  destruct (nth_error positions i) as [[x y]|] eqn:Hp;
    [|apply nth_error_None in Hp; lia].
  exists i, x, y. split; [exact Hi|]. split; [exact Hp|].
  intros offset. unfold real at 1. cbn [click_best_answer].
  rewrite Hclick. unfold AutoClicker.click_answer.
  destruct positions as [|p ps]; [cbn in Hlt; lia|]. cbn [Py.is_nil orb].
  rewrite (proj2 (Nat.leb_gt _ _) Hlt), Hp. reflexivity.
Qed.

(** X21: in a cycle of the repository's agent on a new question for which
    every score is zero, the search is made and the cycle reports success;
    the click action is invoked exactly when auto-click is enabled and
    [min_confidence] is zero or less, so that no positive threshold lets
    an answer without evidence be clicked. *)
Theorem no_evidence_no_click (w : world) (self : agent) (q : string) (opts : list string) :
  recognizes (real w) q opts -> opts <> [] -> q <> last_question self ->
  AnswerSearcher.all_zero (AnswerSearcher.scores_for (web w) q opts) ->
  let r := cycle (real w) self in
  result r = true /\ searched r = true /\
  (clicked r = true <-> auto_click self = true /\ min_confidence self <= 0).
Proof.
  intros Hrec Ho Hnew Hzero r.
  destruct (real_recognizes w q opts Hrec) as (Hq & _).
  pose proof (real_best_answer_truthy w q opts Hrec Ho) as Hbest.
  assert (Hconf : snd (find_best_answer (real w) q opts) == 0).
  { destruct opts as [|o os]; [congruence|].
    apply (find_best_answer_zero (web w) q o os); [now apply truthy_not_empty | exact Hzero]. }
  destruct (real_positions w q opts Hrec Ho) as (ai & _ & _ & Hlen).
  assert (Hpos : positions_of (real w) opts <> []).
  { intros E. rewrite E in Hlen. destruct opts; [congruence | discriminate]. }
  split; [now apply (real_cycle_succeeds w self q opts)|]. split.
  - unfold r. rewrite (cycle_recognized (real w) self q opts Hrec Hq Ho).
    apply String.eqb_neq in Hnew. rewrite Hnew. cbv zeta. rewrite Hbest. cbn [negb].
    destruct (should_click _ _ _ _); unfold searched, calls; cbn [snd];
      rewrite existsb_app; cbn; apply orb_true_r.
  - unfold r. rewrite (clicked_new_question (real w) self q opts Hrec Hq Ho Hnew).
    rewrite Hbest. cbn [andb]. rewrite should_click_iff, Hconf. tauto.
Qed.

End Pipeline.

Section Geometry.

Local Open Scope Z_scope.

(** X22: on a screen of height H and width W, both positive, every button
    position [find_answer_buttons] returns for the answers area, once moved
    by the offset [(0, int(H * 0.4))] that [process_question] uses, lies on
    the screen and below the question area: 0 <= x < W and
    int(H * 0.4) <= y < H. *)
Theorem click_lands_in_answers_area (H W : Z) (img : image) (opts : list string)
        (x y : Z) :
  0 < H -> 0 < W ->
  (height img, width img) = ScreenCapture.answers_area_shape H W ->
  In (x, y) (AutoClicker.find_answer_buttons (Some img) opts) ->
  let abs_x := x + 0 in
  let abs_y := y + ScreenCapture.split_row H in
  0 <= abs_x < W /\ ScreenCapture.split_row H <= abs_y < H.
Proof.
  intros HH HW Hshape Hin abs_x abs_y. unfold abs_x, abs_y.
  unfold ScreenCapture.answers_area_shape, ScreenCapture.split_row in *.
  inversion Hshape as [[Hh Hw]].
  unfold AutoClicker.find_answer_buttons in Hin.
  destruct (Py.is_nil opts); [contradiction|].
  apply In_firstn in Hin. unfold AutoClicker.quadrants in Hin.
  remember (width img / 4) as x1 eqn:X1. remember (3 * width img / 4) as x2 eqn:X2.
  remember (height img / 4) as y1 eqn:Y1. remember (3 * height img / 4) as y2 eqn:Y2.
  rewrite Hh in Y1, Y2. rewrite Hw in X1, X2.
  destruct Hin as [E|[E|[E|[E|[]]]]]; injection E as Ex Ey; subst x y x1 x2 y1 y2;
    clear - HH HW; Z.to_euclidean_division_equations; lia.
Qed.

End Geometry.

(** ** Instances of the further properties *)

Section MoreInstances.

Import KahootAgent Scenario.
Local Open Scope Q_scope.

Lemma find_best_answer_without_evidence_witness :
  AnswerSearcher.find_best_answer (fun _ _ => []) france_question france_options
  = ("London"%string, 0).
Proof.
  destruct (find_best_answer_without_evidence (fun _ _ => []) france_question
              "London" ["Berlin"; "Paris"; "Madrid"]) as (_ & H); [discriminate|].
  apply H. reflexivity.
Defined.

Lemma confidence_is_zero_or_one_witness :
  snd (AnswerSearcher.find_best_answer france_web france_question france_options) == 0 \/
  snd (AnswerSearcher.find_best_answer france_web france_question france_options) == 1.
Proof.
  apply (confidence_is_zero_or_one france_web france_question france_options);
    discriminate.
Defined.

Lemma all_results_bounded_witness :
  (List.length (AnswerSearcher.all_results france_web "capital of france") <= 13)%nat.
Proof.
  apply (all_results_bounded france_web "capital of france").
  intros q n. unfold france_web.
  destruct n as [|[|[|[|n]]]]; cbn; lia.
Defined.

Lemma unrecognized_cycle_is_inert_witness :
  result (cycle (real broken_world) (init true)) = false /\
  state (cycle (real broken_world) (init true)) = init true.
Proof.
  destruct (unrecognized_cycle_is_inert (real broken_world) (init true)) as (H1 & H2 & _).
  - intros (q & opts & (qi & ai & _ & _ & Eq & _) & _). discriminate Eq.
  - split; assumption.
Defined.

Lemma question_count_counts_searches_witness :
  question_count (state (cycle (real france_world) (init true))) = 1%nat.
Proof.
  destruct (question_count_counts_searches (real france_world) (init true)) as (H & _).
  rewrite H. reflexivity.
Defined.

Lemma click_requires_auto_click_witness :
  clicked (cycle (real france_world) (init false)) = false.
Proof.
  apply (click_requires_auto_click (real france_world) (init false)). reflexivity.
Defined.

Lemma failed_search_not_retried_witness :
  let C := stub (""%string, 0) [(200, 150)%Z] in
  result (cycle C (clicking_agent (3 # 10))) = false /\
  result (cycle C (state (cycle C (clicking_agent (3 # 10))))) = true.
Proof.
  intros C.
  destruct (failed_search_not_retried C (clicking_agent (3 # 10))
              france_question france_options) as (H1 & _ & _ & H2 & _);
    try discriminate; try reflexivity.
  - exists question_image, answers_image. repeat split.
  - split; assumption.
Defined.

Lemma run_continuous_counts_witness :
  count_calls is_click
    (snd (run_continuous [real france_world; real france_world] (init false))) = 0%nat.
Proof.
  apply (run_continuous_counts [real france_world; real france_world] (init false)).
  reflexivity.
Defined.

Lemma real_click_reaches_pointer_witness :
  exists i x y,
    AutoClicker.answer_index
      (fst (find_best_answer (real france_world) france_question france_options))
      france_options = Some i /\
    nth_error (positions_of (real france_world) france_options) i = Some (x, y).
Proof.
  destruct (real_click_reaches_pointer france_world france_question france_options)
    as (i & x & y & H1 & H2 & _).
  - exists question_image, answers_image. repeat split.
  - discriminate.
  - exists i, x, y. split; assumption.
Defined.

Lemma no_evidence_no_click_witness :
  result (cycle (real silent_world) (init true)) = true /\
  searched (cycle (real silent_world) (init true)) = true.
Proof.
  destruct (no_evidence_no_click silent_world (init true) france_question france_options)
    as (H1 & H2 & _).
  - exists question_image, answers_image. repeat split.
  - discriminate.
  - discriminate.
  - intros k v Hin. vm_compute in Hin.
    repeat (destruct Hin as [Hin|Hin]; [inversion Hin; reflexivity|]). contradiction.
  - split; assumption.
Defined.

Lemma click_lands_in_answers_area_witness :
  (0 <= 480 + 0 < 1920 /\
   ScreenCapture.split_row 1080 <= 162 + ScreenCapture.split_row 1080 < 1080)%Z.
Proof.
  apply (click_lands_in_answers_area 1080 1920 (mk_image 648 1920 []) france_options
           480 162); try reflexivity.
  simpl. now left.
Defined.

End MoreInstances.
